(** * Polyhedron connectivity of a periodic crystal structure

    A shallow embedding of [connectivity_from_structure.py].

    Conventions of the embedding.
    - Python floats (fractional coordinates, distances, bond weights, the
      margin and the radius) are exact rationals [Q]; the comparisons of the
      source are [Qle_bool] and [Qlt_bool].  Rounding of floating point
      arithmetic is not modelled.
    - [pymatgen]'s [PeriodicSite], [Structure] and [Lattice] are records
      holding the fields the source reads.
    - [structure.get_neighbors] and [calculate_bond_weight] are defined
      outside the repository's two source files: they are parameters.
    - Function bodies are modelled statement by statement; a call of a
      method that the receiving object does not have raises
      [AttributeError], as in Python.  What Python does when the module is
      loaded (the imports, the [class] statement and its bases) and what
      the [print] statements write are not modelled. *)

From Stdlib Require Import QArith Qround ZArith String Lqa.
From stdpp Require Import gmap strings list fin_maps.

Open Scope string_scope.
Open Scope list_scope.

(** ** Sites, lattices and structures *)

(** [x < y] on floats; [Qle_bool] is [<=]. *)
Definition Qlt_bool (x y : Q) : bool := negb (Qle_bool y x).

(** A vector of three floats, as the [numpy] array [frac_coords]. *)
Record Vec3 := mkVec3 { v0 : Q; v1 : Q; v2 : Q }.

(** [frac_coords + [a, b, c]]: element-wise sum, a new array. *)
Definition vadd (v : Vec3) (a b c : Q) : Vec3 :=
  mkVec3 (v0 v + a)%Q (v1 v + b)%Q (v2 v + c)%Q.

Record Lattice := mkLattice { lat_a : Vec3; lat_b : Vec3; lat_c : Vec3 }.

Record PeriodicSite := mkPeriodicSite {
  species_string : string;
  frac_coords : Vec3;
  lattice : Lattice
}.

Record Structure := mkStructure {
  s_lattice : Lattice;
  sites : list PeriodicSite
}.

Definition lat0 : Lattice :=
  mkLattice (mkVec3 1 0 0) (mkVec3 0 1 0) (mkVec3 0 0 1).

(** ** checkReflections (source lines 276-319) *)

Definition checkReflections (site : PeriodicSite) (margin : Q) : list PeriodicSite :=
  let x := 0%Z in
  let y := 0%Z in
  let z := 0%Z in
  let reflections : list PeriodicSite := [] in
  let toReflect := site in
  let x := if Qle_bool 0 (v0 (frac_coords toReflect)) && Qle_bool (v0 (frac_coords toReflect)) margin
           then 1%Z else x in
  let x := if Qle_bool (v0 (frac_coords toReflect)) 1 && Qle_bool (1 - margin)%Q (v0 (frac_coords toReflect))
           then (-1)%Z else x in
  let y := if Qle_bool 0 (v1 (frac_coords toReflect)) && Qle_bool (v1 (frac_coords toReflect)) margin
           then 1%Z else y in
  let y := if Qle_bool (v1 (frac_coords toReflect)) 1 && Qle_bool (1 - margin)%Q (v1 (frac_coords toReflect))
           then (-1)%Z else y in
  let z := if Qle_bool 0 (v2 (frac_coords toReflect)) && Qle_bool (v2 (frac_coords toReflect)) margin
           then 1%Z else z in
  let z := if Qle_bool (v2 (frac_coords toReflect)) 1 && Qle_bool (1 - margin)%Q (v2 (frac_coords toReflect))
           then (-1)%Z else z in
  let mk (a b c : Q) :=
    mkPeriodicSite (species_string site) (vadd (frac_coords site) a b c) (lattice site) in
  let reflections :=
    if negb (Z.eqb x 0) then
      let reflections := reflections ++ [mk (inject_Z x * 1)%Q 0%Q 0%Q] in
      let reflections :=
        if negb (Z.eqb y 0) then
          let reflections := reflections ++ [mk (inject_Z x * 1)%Q (inject_Z y * 1)%Q 0%Q] in
          if negb (Z.eqb z 0) then
            reflections ++ [mk (inject_Z x * 1)%Q (inject_Z y * 1)%Q (inject_Z z * 1)%Q]
          else reflections
        else reflections in
      if negb (Z.eqb z 0) then
        reflections ++ [mk (inject_Z x * 1)%Q 0%Q (inject_Z z * 1)%Q]
      else reflections
    else reflections in
  let reflections :=
    if negb (Z.eqb y 0) then
      let reflections := reflections ++ [mk 0%Q (inject_Z y * 1)%Q 0%Q] in
      if negb (Z.eqb z 0) then
        reflections ++ [mk 0%Q (inject_Z y * 1)%Q (inject_Z z * 1)%Q]
      else reflections
    else reflections in
  let reflections :=
    if negb (Z.eqb z 0) then
      reflections ++ [mk 0%Q 0%Q (inject_Z z * 1)%Q]
    else reflections in
  reflections.

(** ** Exceptions *)

Inductive exn :=
| AttributeError (cls attr : string)
| KeyError (key : string)
| IndexError.

Inductive outcome (A : Type) :=
| Returns (a : A)
| Raises (e : exn).
Arguments Returns {A} a.
Arguments Raises {A} e.

#[global] Instance outcome_ret : MRet outcome := @Returns.
#[global] Instance outcome_bind : MBind outcome :=
  fun A B f m => match m with Returns a => f a | Raises e => Raises e end.



(** ** class Polyhedra (source lines 23-77)

    The class stores what it is given; [S] is the type of what stands for a
    site, and [site_eq] is Python's [==] on two of them. *)

Record Polyhedra (S : Type) := mkPolyhedra {
  _center : S;
  _peripheralIons : list (S * Q)
}.
Arguments mkPolyhedra {S} _ _.
Arguments _center {S} _.
Arguments _peripheralIons {S} _.

Definition get_peripheral_sites {S : Type} (self : Polyhedra S) : list (S * Q) :=
  _peripheralIons self.

Definition get_central_site {S : Type} (self : Polyhedra S) : S := _center self.

Definition get_central_name (self : Polyhedra PeriodicSite) : string :=
  species_string (_center self).

Section GetConnectivity.
Context {S : Type} (site_eq : S -> S -> bool).

(** [for site2 in ...: if site1[0] == site2[0]: connections += 1; break] *)
Fixpoint connectivity_inner (site1 : S * Q) (sites2 : list (S * Q)) (connections : Z) : Z :=
  match sites2 with
  | [] => connections
  | site2 :: sites2' =>
      if site_eq site1.1 site2.1 then (connections + 1)%Z
      else connectivity_inner site1 sites2' connections
  end.

(** [for site1 in self._peripheralIons: ...] *)
Fixpoint connectivity_outer (sites1 : list (S * Q)) (polyhedra2 : Polyhedra S)
    (connections : Z) : Z :=
  match sites1 with
  | [] => connections
  | site1 :: sites1' =>
      connectivity_outer sites1' polyhedra2
        (connectivity_inner site1 (get_peripheral_sites polyhedra2) connections)
  end.

Definition get_connectivity (self polyhedra2 : Polyhedra S) : Z :=
  if site_eq (_center self) (get_central_site polyhedra2) then (-1)%Z
  else
    let connections := 0%Z in
    connectivity_outer (_peripheralIons self) polyhedra2 connections.
End GetConnectivity.

(** ** What the source imports *)

(** [structure.get_neighbors(site, radius)] of [pymatgen] returns
    (site, distance) pairs; [calculate_bond_weight(distance, distances)]
    is imported from the module [effective_coordination]. *)
Class External := {
  get_neighbors : Structure -> PeriodicSite -> Q -> list (PeriodicSite * Q);
  calculate_bond_weight : Q -> list Q -> Q
}.

(** Modelled from the spec: the constructor [Structure(lattice, species,
    frac_coords)] of [pymatgen], which is not in the source files: a new
    structure whose sites are the given (species, fractional coordinate)
    pairs, all on the given lattice. *)
Definition Structure_new (lat : Lattice) (species : list string) (fraccoords : list Vec3)
    : Structure :=
  mkStructure lat (zip_with (fun sp fc => mkPeriodicSite sp fc lat) species fraccoords).

(** [sum] and Python 2's [round] (halves away from zero). *)
Definition py_sum (l : list Q) : Q := fold_left Qplus l 0%Q.

Definition py_round (x : Q) : Z :=
  if Qle_bool 0 x then Qfloor (x + (1#2))%Q else (- Qfloor (- x + (1#2))%Q)%Z.

Definition anions : list string :=
  ["O2-"; "O"; "F-"; "F"; "Cl-"; "Cl"; "I-"; "I"; "Br-"; "Br"; "S2-"; "S"].

Definition is_anion (species : string) : bool := bool_decide (species ∈ anions).

(** ** The store of structure objects

    A Python variable holds a reference to an object.  The store is the
    list of the structure objects allocated so far, a reference is an
    index into it, and constructing an object appends it. *)

#[global] Instance Structure_inhabited : Inhabited Structure :=
  populate (mkStructure lat0 []).

(** The element [[sites, round(sum(bondweights))]] that the builder appends
    to its result: [sites] starts with the central site itself and goes on
    with the (site, distance) entries kept. *)
Inductive sites_item :=
| Central (site : PeriodicSite)
| Bond (entry : PeriodicSite * Q).

Definition polyhedral : Type := list sites_item * Z.

Section Builder.
Context `{External}.

(** [for entry in structure.get_neighbors(site, radius): ...]
    (lines 130-133 and 254-258) *)
Fixpoint neighbor_loop (radius : Q) (entries : list (PeriodicSite * Q))
    (anionSites : list (PeriodicSite * Q)) (bondlengths : list Q)
    : list (PeriodicSite * Q) * list Q :=
  match entries with
  | [] => (anionSites, bondlengths)
  | entry :: entries' =>
      if is_anion (species_string entry.1) && Qlt_bool entry.2 radius then
        neighbor_loop radius entries' (anionSites ++ [entry]) (bondlengths ++ [entry.2])
      else neighbor_loop radius entries' anionSites bondlengths
  end.

(** [for potentialPeripheralIons in anionSites: ...] (lines 134-136) *)
Fixpoint peripheral_loop (bondlengths : list Q) (anionSites : list (PeriodicSite * Q))
    (peripheralSites : list (PeriodicSite * Q)) : list (PeriodicSite * Q) :=
  match anionSites with
  | [] => peripheralSites
  | potentialPeripheralIons :: anionSites' =>
      if Qlt_bool (1 # 100000) (calculate_bond_weight potentialPeripheralIons.2 bondlengths)
      then peripheral_loop bondlengths anionSites' (peripheralSites ++ [potentialPeripheralIons])
      else peripheral_loop bondlengths anionSites' peripheralSites
  end.

(** get_polyhedra (lines 113-138) *)
Definition get_polyhedra (structure : Structure) (site : PeriodicSite) (radius : Q)
    : Polyhedra PeriodicSite :=
  let '(anionSites, bondlengths) :=
    neighbor_loop radius (get_neighbors structure site radius) [] [] in
  let peripheralSites := peripheral_loop bondlengths anionSites [] in
  mkPolyhedra site peripheralSites.

(** [for site in structure.sites: if not site.species_string in anions: ...]
    (lines 225-227) *)
Fixpoint cation_loop (structure_sites : list PeriodicSite) (cationSites : list PeriodicSite)
    : list PeriodicSite :=
  match structure_sites with
  | [] => cationSites
  | site :: rest =>
      if negb (is_anion (species_string site)) then cation_loop rest (cationSites ++ [site])
      else cation_loop rest cationSites
  end.

(** [for site in cationSites: reflections = reflections + checkReflections(site, margin)] *)
Fixpoint reflection_loop (cationSites : list PeriodicSite) (margin : Q)
    (reflections : list PeriodicSite) : list PeriodicSite :=
  match cationSites with
  | [] => reflections
  | site :: rest => reflection_loop rest margin (reflections ++ checkReflections site margin)
  end.

(** [for bond in anionSites: ...] (lines 260-267) *)
Fixpoint bond_loop (site : PeriodicSite) (bondlengths : list Q)
    (anionSites : list (PeriodicSite * Q)) (sites : list sites_item) (bondweights : list Q)
    : list sites_item * list Q :=
  match anionSites with
  | [] => (sites, bondweights)
  | bond :: anionSites' =>
      if String.eqb (species_string site) "Rn" then
        bond_loop site bondlengths anionSites' (sites ++ [Bond bond]) (bondweights ++ [1%Q])
      else if Qlt_bool 0 (calculate_bond_weight bond.2 bondlengths) then
        bond_loop site bondlengths anionSites' (sites ++ [Bond bond])
          (bondweights ++ [calculate_bond_weight bond.2 bondlengths])
      else bond_loop site bondlengths anionSites' sites bondweights
  end.

(** The body of [for site in cationSites:] (lines 250-270): the element
    appended to [polyhedralList]. *)
Definition polyhedral_of (structure : Structure) (radius : Q) (site : PeriodicSite)
    : polyhedral :=
  let sites := [Central site] in
  let '(anionSites, bondlengths) :=
    neighbor_loop radius (get_neighbors structure site radius) [] [] in
  let '(sites, bondweights) := bond_loop site bondlengths anionSites sites [] in
  (sites, py_round (py_sum bondweights)).

Fixpoint polyhedral_loop (structure : Structure) (radius : Q) (cationSites : list PeriodicSite)
    (polyhedralList : list polyhedral) : list polyhedral :=
  match cationSites with
  | [] => polyhedralList
  | site :: rest =>
      polyhedral_loop structure radius rest
        (polyhedralList ++ [polyhedral_of structure radius site])
  end.

(** getAllCationPolyhedralWReflections (lines 220-274).  [h] is the store
    and [structure] the reference the caller passes; the result is the
    store afterwards and the list returned. *)
Definition getAllCationPolyhedralWReflections (h : list Structure) (structure : nat)
    (margin radius : Q) : list Structure * list polyhedral :=
  let cationSites := cation_loop (sites (h !!! structure)) [] in
  let reflections := reflection_loop cationSites margin [] in
  let useTemp := false in
  let '(h, cationSites, useTemp, tempstruct) :=
    if (0 <? length reflections)%nat then
      let cationSites := cationSites ++ reflections in
      let useTemp := true in
      let tempspecies :=
        (species_string <$> sites (h !!! structure)) ++ (species_string <$> reflections) in
      let tempfraccoords :=
        (frac_coords <$> sites (h !!! structure)) ++ (frac_coords <$> reflections) in
      let tempstruct := length h in
      (h ++ [Structure_new (s_lattice (h !!! structure)) tempspecies tempfraccoords],
       cationSites, useTemp, Some tempstruct)
    else (h, cationSites, useTemp, None) in
  let structure :=
    match useTemp, tempstruct with
    | true, Some tempstruct => tempstruct
    | _, _ => structure
    end in
  (h, polyhedral_loop (h !!! structure) radius cationSites []).
End Builder.

(** ** Objects and method calls

    The objects that reach [count_connectivity]: instances of the class
    [Polyhedra], and Python lists (the builder returns a list of
    two-element lists). *)
Inductive pyobj :=
| Obj_Polyhedra (p : Polyhedra PeriodicSite)
| Obj_list (l : polyhedral).

Definition class_name (o : pyobj) : string :=
  match o with
  | Obj_Polyhedra _ => "Polyhedra"
  | Obj_list _ => "list"
  end.

(** [o.get_central_name()]: a method of [Polyhedra], not of [list]. *)
Definition call_get_central_name (o : pyobj) : outcome string :=
  match o with
  | Obj_Polyhedra p => Returns (get_central_name p)
  | Obj_list _ => Raises (AttributeError (class_name o) "get_central_name")
  end.

(** [o.get_connection(o2)]: the class [Polyhedra] defines
    [get_connectivity] and no [get_connection]; [list] has neither. *)
Definition call_get_connection (o o2 : pyobj) : outcome Z :=
  Raises (AttributeError (class_name o) "get_connection").

(** ** count_connectivity (source lines 140-180) *)

Section Classifier.
(** The loop calls two methods on the elements of [polyhedraList]. *)
Context {O : Type}.
Context (m_get_central_name : O -> outcome string).
Context (m_get_connection : O -> O -> outcome Z).

(** [connections[cation][i] += 1] *)
Definition increment (i : nat) (cation : string) (connections : gmap string (list Z))
    : outcome (gmap string (list Z)) :=
  match connections !! cation with
  | None => Raises (KeyError cation)
  | Some counts =>
      match counts !! i with
      | None => Raises IndexError
      | Some n => Returns (<[cation := <[i := (n + 1)%Z]> counts]> connections)
      end
  end.

(** [for polyhedra2 in polyhedraList: ...] (lines 164-176) *)
Fixpoint connection_loop (cation : string) (polyhedra1 : O) (polyhedraList : list O)
    (connections : gmap string (list Z)) (connected : bool)
    : outcome (gmap string (list Z) * bool) :=
  match polyhedraList with
  | [] => Returns (connections, connected)
  | polyhedra2 :: rest =>
      connection ← m_get_connection polyhedra1 polyhedra2;
      if (connection <? 0)%Z then
        connection_loop cation polyhedra1 rest connections connected
      else
        '(connections, connected) ←
          (if (connection =? 1)%Z then
             connections ← increment 1 cation connections; Returns (connections, true)
           else Returns (connections, connected));
        '(connections, connected) ←
          (if (connection =? 2)%Z then
             connections ← increment 2 cation connections; Returns (connections, true)
           else Returns (connections, connected));
        '(connections, connected) ←
          (if (3 <=? connection)%Z then
             connections ← increment 3 cation connections; Returns (connections, true)
           else Returns (connections, connected));
        connection_loop cation polyhedra1 rest connections connected
  end.

(** [for polyhedra1 in polyhedraList: ...] (lines 159-178); [todo] is what
    is left of the list for the outer loop. *)
Fixpoint polyhedra_loop (polyhedraList todo : list O) (connections : gmap string (list Z))
    : outcome (gmap string (list Z)) :=
  match todo with
  | [] => Returns connections
  | polyhedra1 :: rest =>
      cation ← m_get_central_name polyhedra1;
      let connected := false in
      let connections :=
        if negb (bool_decide (cation ∈ dom connections))
        then <[cation := [0; 0; 0; 0]%Z]> connections
        else connections in
      '(connections, connected) ←
        connection_loop cation polyhedra1 polyhedraList connections connected;
      connections ←
        (if negb connected then increment 0 cation connections
         else Returns connections);
      polyhedra_loop polyhedraList rest connections
  end.

(** Lines 158-180, from [connections = {}] to [return connections]. *)
Definition count_connectivity_of (polyhedraList : list O) : outcome (gmap string (list Z)) :=
  let connections : gmap string (list Z) := ∅ in
  polyhedra_loop polyhedraList polyhedraList connections.
End Classifier.

(** [count_connectivity(structure)]: the builder is called with its default
    margin 0.05 and radius 3.0, and the loop runs on the list it returns. *)
Definition count_connectivity `{External} (h : list Structure) (structure : nat)
    : list Structure * outcome (gmap string (list Z)) :=
  let '(h, polyhedraList) := getAllCationPolyhedralWReflections h structure (5 # 100) 3 in
  (h, count_connectivity_of call_get_central_name call_get_connection
        (Obj_list <$> polyhedraList)).


(** ** The reflections the specification describes *)

(** The coordinate lies in [[0, margin]]. *)
Definition near_low (c margin : Q) : bool := Qle_bool 0 c && Qle_bool c margin.

(** The coordinate lies in [[1 - margin, 1]]. *)
Definition near_high (c margin : Q) : bool := Qle_bool (1 - margin)%Q c && Qle_bool c 1.


(** The seven non-empty sets of axes; [(true, false, true)] is the set of
    the first and the third axis. *)
Definition axis_subsets : list (bool * bool * bool) :=
  [ (true, false, false); (true, true, false); (true, true, true); (true, false, true);
    (false, true, false); (false, true, true); (false, false, true) ].

(** The sign the source computes: the test of the high boundary comes
    last and overrides the test of the low boundary. *)
Definition last_sign (c margin : Q) : Z :=
  if near_high c margin then (-1)%Z else if near_low c margin then 1%Z else 0%Z.

Section Copies.
(** The sign of an axis, from its coordinate and the margin. *)
Context (sign : Q -> Q -> Z).

(** Every axis of the set has a sign. *)
Definition all_near_by (site : PeriodicSite) (margin : Q) (axes : bool * bool * bool)
    : bool :=
  let '(ax, ay, az) := axes in
  implb ax (negb (sign (v0 (frac_coords site)) margin =? 0)%Z)
  && implb ay (negb (sign (v1 (frac_coords site)) margin =? 0)%Z)
  && implb az (negb (sign (v2 (frac_coords site)) margin =? 0)%Z).

(** The copy of the site moved by the signed unit vector on the axes of
    the set. *)
Definition translated_by (site : PeriodicSite) (margin : Q) (axes : bool * bool * bool)
    : PeriodicSite :=
  let '(ax, ay, az) := axes in
  let step (a : bool) (c : Q) : Q :=
    if a then (inject_Z (sign c margin) * 1)%Q else 0%Q in
  mkPeriodicSite (species_string site)
    (vadd (frac_coords site) (step ax (v0 (frac_coords site)))
       (step ay (v1 (frac_coords site))) (step az (v2 (frac_coords site))))
    (lattice site).
End Copies.


(** ** The neighbours a polyhedron keeps, stated on lists *)

(** The neighbours kept at lines 255-258 (and 131-133): anions nearer than
    the radius. *)
Definition kept (radius : Q) (entry : PeriodicSite * Q) : bool :=
  is_anion (species_string entry.1) && Qlt_bool entry.2 radius.

(** The kept neighbours that lines 260-267 append for the central site. *)
Definition bonded `{External} (site : PeriodicSite) (bondlengths : list Q)
    (bond : PeriodicSite * Q) : bool :=
  String.eqb (species_string site) "Rn"
  || Qlt_bool 0 (calculate_bond_weight bond.2 bondlengths).

Definition bond_weight_of `{External} (site : PeriodicSite) (bondlengths : list Q)
    (bond : PeriodicSite * Q) : Q :=
  if String.eqb (species_string site) "Rn" then 1%Q
  else calculate_bond_weight bond.2 bondlengths.

(** ** What the builder works on, stated on lists *)

Definition cation_sites_of (s : Structure) : list PeriodicSite :=
  List.filter (fun site => negb (is_anion (species_string site))) (sites s).

Definition reflections_of (s : Structure) (margin : Q) : list PeriodicSite :=
  cation_sites_of s ≫= fun site => checkReflections site margin.

(** The structure constructed at line 244. *)
Definition augmented (s : Structure) (margin : Q) : Structure :=
  Structure_new (s_lattice s)
    ((species_string <$> sites s) ++ (species_string <$> reflections_of s margin))
    ((frac_coords <$> sites s) ++ (frac_coords <$> reflections_of s margin)).

(** ** The histogram the specification describes *)

Section Histogram.
(** A list of objects whose two methods return: [name p] is what
    [p.get_central_name()] returns and [conn p q] what
    [p.get_connection(q)] returns. *)
Context {O : Type} (name : O -> string) (conn : O -> O -> Z).

(** The bucket of a shared count: 1 point, 2 edge, 3 face. *)
Definition in_bucket (i : nat) (c : Z) : bool :=
  match i with
  | 1%nat => (c =? 1)%Z
  | 2%nat => (c =? 2)%Z
  | 3%nat => (3 <=? c)%Z
  | _ => false
  end.

(** The number of elements [q] of the list whose comparison with [p] falls
    in bucket [i]. *)
Definition instances (i : nat) (p : O) (l : list O) : Z :=
  Z.of_nat (length (List.filter (fun q => in_bucket i (conn p q)) l)).

(** Some comparison of [p] gave a positive count. *)
Definition connected_to_any (p : O) (l : list O) : bool :=
  existsb (fun q => (0 <? conn p q)%Z) l.

(** 1 when no comparison of [p] gave a positive count, else 0. *)
Definition isolated (p : O) (l : list O) : Z :=
  if connected_to_any p l then 0%Z else 1%Z.

(** The sum of [f p] over the elements [p] of [ps] of the given species. *)
Fixpoint species_total (f : O -> Z) (cation : string) (ps : list O) : Z :=
  match ps with
  | [] => 0%Z
  | p :: ps' => ((if String.eqb (name p) cation then f p else 0) + species_total f cation ps')%Z
  end.

(** The vector of a species after the elements [ps] have been compared
    with every element of [l]. *)
Definition species_vector (cation : string) (ps l : list O) : list Z :=
  [ species_total (fun p => isolated p l) cation ps;
    species_total (fun p => instances 1 p l) cation ps;
    species_total (fun p => instances 2 p l) cation ps;
    species_total (fun p => instances 3 p l) cation ps ].

(** The mapping holds the vectors of the species of [ps] and nothing else. *)
Definition describes (m : gmap string (list Z)) (ps l : list O) : Prop :=
  forall cation,
    m !! cation
    = if bool_decide (cation ∈ name <$> ps) then Some (species_vector cation ps l) else None.
End Histogram.

(** ** Site objects compared by identity *)

(** Modelled from the spec: [==] on two site objects, which [pymatgen]
    defines and the source files do not: the two are the identical object.
    A site object is stood for by its address; the coordinates stored at
    an address play no part in the comparison. *)
Definition site_ref : Type := nat.

Definition same_object (a b : site_ref) : bool := Nat.eqb a b.

Definition sharedCount (a b : Polyhedra site_ref) : Z := get_connectivity same_object a b.

(** ** Sample data *)

(** Two polyhedra on different centres; the first lists the site object at
    address 10 twice. *)
Definition poly_twice : Polyhedra site_ref := mkPolyhedra 1%nat [(10%nat, 2%Q); (10%nat, 2%Q)].
Definition poly_once : Polyhedra site_ref := mkPolyhedra 2%nat [(10%nat, 2%Q)].
Definition poly_abc : Polyhedra site_ref :=
  mkPolyhedra 1%nat [(10%nat, 2%Q); (11%nat, 2%Q); (12%nat, 2.5%Q)].
Definition poly_bcd : Polyhedra site_ref :=
  mkPolyhedra 2%nat [(13%nat, 2%Q); (12%nat, 2%Q); (11%nat, 2.1%Q)].

Definition site_Li_face : PeriodicSite := mkPeriodicSite "Li" (mkVec3 0.02 0.5 0.5) lat0.
Definition site_Li_mid : PeriodicSite := mkPeriodicSite "Li" (mkVec3 0.5 0.5 0.5) lat0.

(** A cubic cell of edge 10 with a lithium site at its centre and oxygen
    sites at distances 2, 2, 2 and 4 from it. *)
Definition lat10 : Lattice :=
  mkLattice (mkVec3 10 0 0) (mkVec3 0 10 0) (mkVec3 0 0 10).

Definition site_Li : PeriodicSite := mkPeriodicSite "Li" (mkVec3 0.5 0.5 0.5) lat10.
Definition site_O1 : PeriodicSite := mkPeriodicSite "O" (mkVec3 0.7 0.5 0.5) lat10.
Definition site_O2 : PeriodicSite := mkPeriodicSite "O" (mkVec3 0.3 0.5 0.5) lat10.
Definition site_O3 : PeriodicSite := mkPeriodicSite "O" (mkVec3 0.5 0.7 0.5) lat10.
Definition site_O4 : PeriodicSite := mkPeriodicSite "O" (mkVec3 0.5 0.9 0.5) lat10.

Definition struct_LiO4 : Structure :=
  mkStructure lat10 [site_Li; site_O1; site_O2; site_O3; site_O4].

(** A neighbour search that answers for the lithium site of [struct_LiO4],
    and a bond weight that is 1 up to distance 3 and 1e-27 beyond. *)
Definition ext_LiO4 : External := {|
  get_neighbors := fun _ site _ =>
    if String.eqb (species_string site) "Li"
    then [(site_O1, 2%Q); (site_O2, 2%Q); (site_O3, 2%Q); (site_O4, 4%Q)]
    else [];
  calculate_bond_weight := fun d _ =>
    if Qle_bool d 3 then 1%Q else (1 # 1000000000000000000000000000)%Q
|}.

(** A neighbour search that finds nothing. *)
Definition ext_alone : External := {|
  get_neighbors := fun _ _ _ => [];
  calculate_bond_weight := fun _ _ => 1%Q
|}.

Definition struct_Li_mid : Structure := mkStructure lat0 [site_Li_mid].
Definition struct_Li_face : Structure := mkStructure lat0 [site_Li_face].

(** ** Counts used to state what the classifier returns *)

Section Counts.
Context {O : Type} (name : O -> string) (conn : O -> O -> Z).

(** The number of elements [q] of the list with [conn p q] positive. *)
Definition positives (p : O) (l : list O) : Z :=
  Z.of_nat (length (List.filter (fun q => (0 <? conn p q)%Z) l)).

(** The number of elements of the list of the given species. *)
Definition members (cation : string) (l : list O) : Z :=
  Z.of_nat (length (List.filter (fun p => String.eqb (name p) cation) l)).
End Counts.

(** Every vector of the mapping has four entries. *)
Definition four_wide (m : gmap string (list Z)) : Prop :=
  forall cation v, m !! cation = Some v -> length v = 4%nat.

(** A list of polyhedra over site objects with a species for each. *)
Definition sample_name (p : Polyhedra site_ref) : string :=
  if Nat.eqb (_center p) 3 then "Co" else "Li".

Definition poly_alone : Polyhedra site_ref := mkPolyhedra 3%nat [].

Definition sample_list : list (Polyhedra site_ref) := [poly_abc; poly_bcd; poly_alone].

Definition sample_histogram : gmap string (list Z) :=
  {[ "Li" := [0; 0; 2; 0]%Z; "Co" := [1; 0; 0; 0]%Z ]}.

(** The structure the neighbour search of the builder runs on: the input,
    or the structure constructed at line 244 when there are reflections. *)
Definition searched (s : Structure) (margin : Q) : Structure :=
  match reflections_of s margin with
  | [] => s
  | _ :: _ => augmented s margin
  end.

(** A radon site with two oxygen neighbours, for the probe branch. *)
Definition site_Rn : PeriodicSite := mkPeriodicSite "Rn" (mkVec3 0.5 0.5 0.5) lat10.

Definition struct_Rn : Structure := mkStructure lat10 [site_Rn; site_O1; site_O2].

Definition ext_Rn : External := {|
  get_neighbors := fun _ site _ =>
    if String.eqb (species_string site) "Rn"
    then [(site_O1, 2%Q); (site_O2, 2%Q)]
    else [];
  calculate_bond_weight := fun _ _ => 0%Q
|}.

Definition struct_O : Structure := mkStructure lat10 [site_O1; site_O2].




(** ** The other functions of connectivity_from_structure.py *)

(** [peripheral.distance(self._center)] for an element of
    [_peripheralIons]: the elements are (site, distance) tuples, and a
    tuple has no method [distance]. *)
Definition call_distance {S : Type} (peripheral : S * Q) (site : S) : outcome Q :=
  Raises (AttributeError "tuple" "distance").

(** Polyhedra.get_peripheral_distances (lines 67-77) *)
Fixpoint peripheral_distances_loop {S : Type} (center : S) (peripheralIons : list (S * Q))
    (peripheralDistances : list Q) : outcome (list Q) :=
  match peripheralIons with
  | [] => Returns peripheralDistances
  | peripheral :: rest =>
      d ← call_distance peripheral center;
      peripheral_distances_loop center rest (peripheralDistances ++ [d])
  end.

Definition get_peripheral_distances {S : Type} (self : Polyhedra S) : outcome (list Q) :=
  let peripheralDistances := [] in
  peripheral_distances_loop (_center self) (_peripheralIons self) peripheralDistances.

(** [o.getConnectivity(o2)]: no class of the module defines it. *)
Definition call_getConnectivity (o o2 : pyobj) : outcome Z :=
  Raises (AttributeError (class_name o) "getConnectivity").

(** get_connection (lines 80-92); the second [return] is never reached. *)
Definition get_connection (polyhedra1 polyhedra2 : pyobj) : outcome Z :=
  call_getConnectivity polyhedra1 polyhedra2.

(** [for otherPolyhedra in polyhedraList: ...] (lines 106-109) *)
Fixpoint surrounding_loop (polyhedra : pyobj) (polyhedraList : list pyobj)
    (connectedPolyhedra : list (pyobj * Z)) : outcome (list (pyobj * Z)) :=
  match polyhedraList with
  | [] => Returns connectedPolyhedra
  | otherPolyhedra :: rest =>
      connection ← call_get_connection polyhedra otherPolyhedra;
      if (0 <? connection)%Z then
        surrounding_loop polyhedra rest (connectedPolyhedra ++ [(otherPolyhedra, connection)])
      else surrounding_loop polyhedra rest connectedPolyhedra
  end.

(** get_surrounding_connectivity (lines 94-111) *)
Definition get_surrounding_connectivity `{External} (h : list Structure) (structure : nat)
    (polyhedra : pyobj) : list Structure * outcome (list (pyobj * Z)) :=
  let '(h, polyhedraList) := getAllCationPolyhedralWReflections h structure (5 # 100) 3 in
  let connectedPolyhedra := [] in
  (h, surrounding_loop polyhedra (Obj_list <$> polyhedraList) connectedPolyhedra).

(** ** getAvgOKeeffeCN (okeeffe_coordination_number_from_structure.py)

    [substructures_from_structure] is imported from the module
    [substructure]; of a substructure the source reads [central_ion], stood
    for by its name, and [weight_sum()]. *)
Record Substructure := mkSubstructure {
  central_ion : string;
  weight_sum : Q
}.

(** [numpy.mean] of a list of floats. *)
Definition np_mean (l : list Q) : Q := (py_sum l / inject_Z (Z.of_nat (length l)))%Q.

(** [for substruct in substructList: ...] (lines 16-22) *)
Fixpoint okeeffe_loop (substructList : list Substructure) (cationList : list string)
    (listCN : gmap string (list Q)) : outcome (list string * gmap string (list Q)) :=
  match substructList with
  | [] => Returns (cationList, listCN)
  | substruct :: rest =>
      let cation := central_ion substruct in
      if negb (bool_decide (cation ∈ cationList)) then
        okeeffe_loop rest (cationList ++ [cation])
          (<[cation := [weight_sum substruct]]> listCN)
      else
        match listCN !! cation with
        | None => Raises (KeyError cation)
        | Some weights =>
            okeeffe_loop rest cationList
              (<[cation := weights ++ [weight_sum substruct]]> listCN)
        end
  end.

Section OKeeffe.
Context (substructures_from_structure : Structure -> list Substructure).

(** getAvgOKeeffeCN (lines 12-26); the keys of the dict are visited in the
    order of [map_to_list]. *)
Definition getAvgOKeeffeCN (structure : Structure) (radius : Q)
    : outcome (list (string * Q)) :=
  let substructList := substructures_from_structure structure in
  '(cationList, listCN) ← okeeffe_loop substructList [] ∅;
  Returns ((fun entry : string * list Q => (entry.1, np_mean entry.2))
             <$> map_to_list listCN).
End OKeeffe.

(** The weight sums of the substructures of the list centred on the ion, in
    the order of the list. *)
Definition weights_of (key : string) (substructList : list Substructure) : list Q :=
  weight_sum <$> filter (fun substruct => central_ion substruct = key) substructList.

(** What the loop has gathered after the substructures [done]. *)
Definition gathered (done : list Substructure) (cationList : list string)
    (listCN : gmap string (list Q)) : Prop :=
  (forall key, key ∈ cationList <-> key ∈ central_ion <$> done)
  /\ (forall key,
        listCN !! key
        = if bool_decide (key ∈ central_ion <$> done) then Some (weights_of key done)
          else None).

(** * Properties *)


(** ** The reflection generator *)

Lemma Qlt_bool_iff (x y : Q) : Qlt_bool x y = true <-> (x < y)%Q.
Proof.
  unfold Qlt_bool. rewrite negb_true_iff. split.
  - intros Hb. apply Qnot_le_lt. intros Hle. apply Qle_bool_iff in Hle. congruence.
  - intros Hlt. destruct (Qle_bool y x) eqn:E; [|reflexivity].
    apply Qle_bool_iff in E. lra.
Qed.



(** For every margin, the copies are those of the sets of axes that have a
    sign, the sign being the one of the last test that holds. *)
Lemma checkReflections_any_margin (site : PeriodicSite) (margin : Q) :
  checkReflections site margin
  = translated_by last_sign site margin
      <$> List.filter (all_near_by last_sign site margin) axis_subsets.
Proof.
  unfold checkReflections, all_near_by, translated_by, last_sign, near_low, near_high.
  rewrite !(andb_comm (Qle_bool (1 - margin) _)).
  destruct (Qle_bool 0 (v0 (frac_coords site)) && Qle_bool (v0 (frac_coords site)) margin),
    (Qle_bool (v0 (frac_coords site)) 1 && Qle_bool (1 - margin) (v0 (frac_coords site)));
  destruct (Qle_bool 0 (v1 (frac_coords site)) && Qle_bool (v1 (frac_coords site)) margin),
    (Qle_bool (v1 (frac_coords site)) 1 && Qle_bool (1 - margin) (v1 (frac_coords site)));
  destruct (Qle_bool 0 (v2 (frac_coords site)) && Qle_bool (v2 (frac_coords site)) margin),
    (Qle_bool (v2 (frac_coords site)) 1 && Qle_bool (1 - margin) (v2 (frac_coords site)));
    reflexivity.
Qed.



Lemma axis_subsets_nonempty (axes : bool * bool * bool) :
  axes ∈ axis_subsets <-> axes <> (false, false, false).
Proof.
  unfold axis_subsets. rewrite !elem_of_cons, elem_of_nil.
  destruct axes as [[[] []] []]; split; intros Hq; try done; try tauto.
  repeat (destruct Hq as [Hq | Hq]; [discriminate Hq|]). done.
Qed.

Lemma checkReflections_keeps (site r : PeriodicSite) (margin : Q) :
  r ∈ checkReflections site margin ->
  species_string r = species_string site /\ lattice r = lattice site.
Proof.
  unfold checkReflections. cbv zeta.
  repeat match goal with
    | |- context [if ?b then _ else _] => destruct b
    end;
    simpl; rewrite ?elem_of_cons, ?elem_of_nil; intros Hin;
    repeat (destruct Hin as [-> | Hin]; [split; reflexivity|]); try done;
    subst; split; reflexivity.
Qed.



(** ** Shared peripheral ions *)

Section GetConnectivityFacts.
Context {S : Type} (site_eq : S -> S -> bool).

Lemma connectivity_inner_found (site1 : S * Q) (sites2 : list (S * Q)) (connections : Z) :
  connectivity_inner site_eq site1 sites2 connections
  = (connections + if existsb (fun site2 => site_eq site1.1 site2.1) sites2 then 1 else 0)%Z.
Proof.
  induction sites2 as [|site2 sites2 IH]; simpl; [lia|].
  destruct (site_eq site1.1 site2.1); simpl; [reflexivity|apply IH].
Qed.

Lemma connectivity_outer_count (sites1 : list (S * Q)) (polyhedra2 : Polyhedra S)
    (connections : Z) :
  connectivity_outer site_eq sites1 polyhedra2 connections
  = (connections
     + Z.of_nat (length (List.filter
          (fun site1 => existsb (fun site2 => site_eq site1.1 site2.1)
                          (_peripheralIons polyhedra2)) sites1)))%Z.
Proof.
  revert connections. induction sites1 as [|site1 sites1 IH]; intros connections; simpl; [lia|].
  rewrite IH, connectivity_inner_found. unfold get_peripheral_sites.
  destruct (existsb _ (_peripheralIons polyhedra2)); simpl length; lia.
Qed.

Lemma get_connectivity_count (self polyhedra2 : Polyhedra S) :
  get_connectivity site_eq self polyhedra2
  = if site_eq (_center self) (_center polyhedra2) then (-1)%Z
    else Z.of_nat (length (List.filter
           (fun site1 => existsb (fun site2 => site_eq site1.1 site2.1)
                           (_peripheralIons polyhedra2)) (_peripheralIons self))).
Proof.
  unfold get_connectivity, get_central_site.
  destruct (site_eq _ _); [reflexivity|]. by rewrite connectivity_outer_count.
Qed.
End GetConnectivityFacts.

Lemma same_object_found (r : site_ref) (sites2 : list (site_ref * Q)) :
  existsb (fun site2 => same_object r site2.1) sites2 = bool_decide (r ∈ sites2.*1).
Proof.
  induction sites2 as [|site2 sites2 IH]; simpl; [reflexivity|].
  rewrite IH. unfold same_object.
  destruct (Nat.eqb_spec r site2.1) as [->|Hne]; simpl.
  - symmetry. apply bool_decide_eq_true. left.
  - apply bool_decide_ext. rewrite elem_of_cons. tauto.
Qed.

Lemma sharedCount_count (a b : Polyhedra site_ref) :
  sharedCount a b
  = if bool_decide (_center a = _center b) then (-1)%Z
    else Z.of_nat (length (filter (fun ion => ion.1 ∈ (_peripheralIons b).*1)
                             (_peripheralIons a))).
Proof.
  unfold sharedCount. rewrite get_connectivity_count. unfold same_object at 1.
  destruct (Nat.eqb_spec (_center a) (_center b)) as [Heq|Hne].
  - by rewrite bool_decide_eq_true_2.
  - rewrite bool_decide_eq_false_2 by done. do 2 f_equal.
    induction (_peripheralIons a) as [|ion ions IH]; [reflexivity|].
    simpl. rewrite filter_cons, same_object_found, IH.
    destruct (decide (ion.1 ∈ (_peripheralIons b).*1)) as [Hin|Hout].
    + by rewrite bool_decide_eq_true_2.
    + by rewrite bool_decide_eq_false_2.
Qed.

(** C6: [sharedCount a b] is -1 exactly when the two centres are the
    identical site object, so it is -1 for a polyhedron and itself;
    otherwise it is the number of entries of [a]'s peripheral ions whose
    site object occurs among [b]'s peripheral ions, each entry of [a]
    counted once however many entries of [b] it matches. *)
Theorem sharedCount_identity (a b : Polyhedra site_ref) :
  sharedCount a b
    = (if bool_decide (_center a = _center b) then (-1)%Z
       else Z.of_nat (length (filter (fun ion => ion.1 ∈ (_peripheralIons b).*1)
                                (_peripheralIons a))))
  /\ (sharedCount a b = (-1)%Z <-> _center a = _center b)
  /\ sharedCount a a = (-1)%Z
  /\ (-1 <= sharedCount a b <= Z.of_nat (length (_peripheralIons a)))%Z
  /\ sharedCount (mkPolyhedra 1%nat [(10%nat, 2%Q)])
       (mkPolyhedra 2%nat [(10%nat, 2%Q); (10%nat, 2%Q); (10%nat, 3%Q)]) = 1%Z.
Proof.
  split; [apply sharedCount_count|].
  split; [|split; [|split; [|reflexivity]]].
  - rewrite sharedCount_count. case_bool_decide; [tauto|]. split; [lia|done].
  - rewrite sharedCount_count. by rewrite bool_decide_eq_true_2.
  - rewrite sharedCount_count.
    pose proof (length_filter (fun ion : site_ref * Q => ion.1 ∈ (_peripheralIons b).*1)
                  (_peripheralIons a)).
    case_bool_decide; lia.
Qed.

Lemma filter_fst_length (B : list site_ref) (ions : list (site_ref * Q)) :
  length (filter (fun ion => ion.1 ∈ B) ions) = length (filter (fun r => r ∈ B) ions.*1).
Proof.
  induction ions as [|ion ions IH]; [reflexivity|].
  rewrite fmap_cons, !filter_cons. destruct (decide (ion.1 ∈ B)); simpl; by rewrite IH.
Qed.

Lemma common_length (A B : list site_ref) :
  NoDup A -> NoDup B ->
  length (filter (fun r => r ∈ B) A) = length (filter (fun r => r ∈ A) B).
Proof.
  intros HA HB. apply Permutation_length, NoDup_Permutation.
  - by apply NoDup_filter.
  - by apply NoDup_filter.
  - intros r. rewrite !list_elem_of_filter. tauto.
Qed.

(** C7, as the code has it: for two polyhedra with different centre objects,
    neither of which lists a site object twice among its peripheral ions,
    [sharedCount a b = sharedCount b a]. *)
Theorem sharedCount_symmetric (a b : Polyhedra site_ref) :
  _center a <> _center b ->
  NoDup (_peripheralIons a).*1 ->
  NoDup (_peripheralIons b).*1 ->
  sharedCount a b = sharedCount b a.
Proof.
  intros Hne Ha Hb. rewrite !sharedCount_count.
  rewrite !bool_decide_eq_false_2 by congruence.
  f_equal. rewrite !filter_fst_length. by apply common_length.
Qed.

Lemma sharedCount_symmetric_witness : sharedCount poly_abc poly_bcd = sharedCount poly_bcd poly_abc.
Proof.
  apply (sharedCount_symmetric poly_abc poly_bcd).
  - simpl. lia.
  - simpl. compute_done.
  - simpl. compute_done.
Defined.

(** C7 as stated fails: a polyhedron that lists one site object twice counts
    it twice from its own side and once from the other side. *)
Lemma sharedCount_not_symmetric :
  ~ (forall a b : Polyhedra site_ref, _center a <> _center b -> sharedCount a b = sharedCount b a).
Proof.
  intros Hsym. specialize (Hsym poly_twice poly_once).
  assert (Hne : _center poly_twice <> _center poly_once) by (simpl; lia).
  specialize (Hsym Hne). vm_compute in Hsym. discriminate Hsym.
Qed.

(** ** The loops of the builder *)

Section BuilderFacts.
Context `{External}.

Lemma neighbor_loop_filter (radius : Q) (entries anionSites : list (PeriodicSite * Q))
    (bondlengths : list Q) :
  neighbor_loop radius entries anionSites bondlengths
  = (anionSites ++ List.filter (kept radius) entries,
     bondlengths ++ (List.filter (kept radius) entries).*2).
Proof.
  revert anionSites bondlengths.
  induction entries as [|entry entries IH]; intros anionSites bondlengths; simpl.
  - by rewrite !app_nil_r.
  - change (is_anion (species_string entry.1) && Qlt_bool entry.2 radius)
      with (kept radius entry).
    destruct (kept radius entry); [|apply IH].
    rewrite IH, fmap_cons, <- !app_assoc. reflexivity.
Qed.

Lemma peripheral_loop_filter (bondlengths : list Q)
    (anionSites peripheralSites : list (PeriodicSite * Q)) :
  peripheral_loop bondlengths anionSites peripheralSites
  = peripheralSites
    ++ List.filter (fun e => Qlt_bool (1 # 100000) (calculate_bond_weight e.2 bondlengths))
         anionSites.
Proof.
  revert peripheralSites.
  induction anionSites as [|e anionSites IH]; intros peripheralSites; simpl.
  - by rewrite app_nil_r.
  - destruct (Qlt_bool _ _); [|apply IH]. by rewrite IH, <- app_assoc.
Qed.

Lemma bond_loop_filter (site : PeriodicSite) (bondlengths : list Q)
    (anionSites : list (PeriodicSite * Q)) (sites : list sites_item) (bondweights : list Q) :
  bond_loop site bondlengths anionSites sites bondweights
  = (sites ++ (Bond <$> List.filter (bonded site bondlengths) anionSites),
     bondweights
     ++ (bond_weight_of site bondlengths <$> List.filter (bonded site bondlengths) anionSites)).
Proof.
  revert sites bondweights.
  induction anionSites as [|bond anionSites IH]; intros sites bondweights; simpl.
  - by rewrite !app_nil_r.
  - destruct (String.eqb (species_string site) "Rn") eqn:ERn.
    + assert (bonded site bondlengths bond = true) as ->
        by (unfold bonded; by rewrite ERn).
      rewrite IH, !fmap_cons, <- !app_assoc. unfold bond_weight_of at 2.
      by rewrite ERn.
    + destruct (Qlt_bool 0 _) eqn:Ew.
      * assert (bonded site bondlengths bond = true) as ->
          by (unfold bonded; by rewrite ERn, Ew).
        rewrite IH, !fmap_cons, <- !app_assoc. unfold bond_weight_of at 2.
        by rewrite ERn.
      * assert (bonded site bondlengths bond = false) as ->
          by (unfold bonded; by rewrite ERn, Ew).
        apply IH.
Qed.

Lemma cation_loop_filter (structure_sites cationSites : list PeriodicSite) :
  cation_loop structure_sites cationSites
  = cationSites ++ List.filter (fun site => negb (is_anion (species_string site))) structure_sites.
Proof.
  revert cationSites.
  induction structure_sites as [|site rest IH]; intros cationSites; simpl.
  - by rewrite app_nil_r.
  - destruct (negb _); [|apply IH]. by rewrite IH, <- app_assoc.
Qed.

Lemma reflection_loop_bind (cationSites : list PeriodicSite) (margin : Q)
    (reflections : list PeriodicSite) :
  reflection_loop cationSites margin reflections
  = reflections ++ (cationSites ≫= fun site => checkReflections site margin).
Proof.
  revert reflections.
  induction cationSites as [|site rest IH]; intros reflections; simpl.
  - by rewrite app_nil_r.
  - by rewrite IH, <- app_assoc.
Qed.

Lemma polyhedral_loop_map (structure : Structure) (radius : Q)
    (cationSites : list PeriodicSite) (polyhedralList : list polyhedral) :
  polyhedral_loop structure radius cationSites polyhedralList
  = polyhedralList ++ (polyhedral_of structure radius <$> cationSites).
Proof.
  revert polyhedralList.
  induction cationSites as [|site rest IH]; intros polyhedralList; simpl.
  - by rewrite app_nil_r.
  - by rewrite IH, <- app_assoc.
Qed.

Lemma polyhedral_of_sites (structure : Structure) (radius : Q) (site : PeriodicSite) :
  (polyhedral_of structure radius site).1
  = Central site
    :: (Bond <$> List.filter
          (bonded site (List.filter (kept radius) (get_neighbors structure site radius)).*2)
          (List.filter (kept radius) (get_neighbors structure site radius))).
Proof.
  unfold polyhedral_of. rewrite neighbor_loop_filter. simpl.
  rewrite bond_loop_filter. reflexivity.
Qed.
End BuilderFacts.

(** ** The builder as a whole *)

Section BuilderRun.
Context `{External}.

(** What a call of the builder does to the store and what it returns. *)
Lemma builder_run (h : list Structure) (structure : nat) (margin radius : Q) :
  getAllCationPolyhedralWReflections h structure margin radius
  = match reflections_of (h !!! structure) margin with
    | [] => (h, polyhedral_of (h !!! structure) radius <$> cation_sites_of (h !!! structure))
    | _ :: _ =>
        (h ++ [augmented (h !!! structure) margin],
         polyhedral_of (augmented (h !!! structure) margin) radius
           <$> (cation_sites_of (h !!! structure) ++ reflections_of (h !!! structure) margin))
    end.
Proof.
  unfold getAllCationPolyhedralWReflections.
  rewrite cation_loop_filter, reflection_loop_bind. simpl.
  fold (cation_sites_of (h !!! structure)).
  fold (reflections_of (h !!! structure) margin).
  destruct (reflections_of (h !!! structure) margin) as [|r0 rs] eqn:Er; simpl.
  - by rewrite polyhedral_loop_map.
  - rewrite polyhedral_loop_map. simpl.
    rewrite list_lookup_total_middle by reflexivity.
    unfold augmented. rewrite Er. reflexivity.
Qed.

Lemma builder_length (h : list Structure) (structure : nat) (margin radius : Q) :
  length (getAllCationPolyhedralWReflections h structure margin radius).2
  = (length (cation_sites_of (h !!! structure))
     + length (reflections_of (h !!! structure) margin))%nat.
Proof.
  rewrite builder_run.
  destruct (reflections_of (h !!! structure) margin) as [|r0 rs]; simpl.
  - rewrite length_fmap. lia.
  - by rewrite length_fmap, length_app.
Qed.

(** The central sites of the returned list, in order: the cation sites of
    the structure, then their reflected copies. *)
Lemma builder_centres (h : list Structure) (structure : nat) (margin radius : Q) :
  (fun p : polyhedral => head p.1)
    <$> (getAllCationPolyhedralWReflections h structure margin radius).2
  = (fun site => Some (Central site))
      <$> (cation_sites_of (h !!! structure) ++ reflections_of (h !!! structure) margin).
Proof.
  rewrite builder_run.
  destruct (reflections_of (h !!! structure) margin) as [|r0 rs]; simpl snd;
    rewrite ?app_nil_r, <- list_fmap_compose; apply list_fmap_ext;
    intros i site _; simpl; by rewrite polyhedral_of_sites.
Qed.
End BuilderRun.

Lemma Structure_new_fields (lat : Lattice) (l : list PeriodicSite) :
  species_string <$> sites (Structure_new lat (species_string <$> l) (frac_coords <$> l))
    = species_string <$> l
  /\ frac_coords <$> sites (Structure_new lat (species_string <$> l) (frac_coords <$> l))
    = frac_coords <$> l
  /\ Forall (fun site => lattice site = lat)
       (sites (Structure_new lat (species_string <$> l) (frac_coords <$> l))).
Proof.
  unfold Structure_new. cbn [sites].
  induction l as [|site l (IH1 & IH2 & IH3)]; csimpl; [by repeat split|].
  repeat split; [by f_equal|by f_equal|by constructor].
Qed.

(** C10: the builder leaves every object of the store as it was, the input
    structure among them; when there are reflections it appends one new
    structure, on the lattice of the input, whose species and fractional
    coordinates are those of the input's sites followed by those of the
    reflections, and otherwise it leaves the store as it was. *)
Theorem builder_keeps_input `{External} (h : list Structure) (structure : nat)
    (margin radius : Q) :
  (structure < length h)%nat ->
  take (length h) (getAllCationPolyhedralWReflections h structure margin radius).1 = h
  /\ (getAllCationPolyhedralWReflections h structure margin radius).1 !! structure
     = h !! structure
  /\ (reflections_of (h !!! structure) margin = [] ->
      (getAllCationPolyhedralWReflections h structure margin radius).1 = h)
  /\ (reflections_of (h !!! structure) margin <> [] ->
      (getAllCationPolyhedralWReflections h structure margin radius).1
      = h ++ [augmented (h !!! structure) margin])
  /\ s_lattice (augmented (h !!! structure) margin) = s_lattice (h !!! structure)
  /\ species_string <$> sites (augmented (h !!! structure) margin)
     = species_string <$> (sites (h !!! structure) ++ reflections_of (h !!! structure) margin)
  /\ frac_coords <$> sites (augmented (h !!! structure) margin)
     = frac_coords <$> (sites (h !!! structure) ++ reflections_of (h !!! structure) margin).
Proof.
  intros Hlt. rewrite builder_run.
  assert (Hfields := Structure_new_fields (s_lattice (h !!! structure))
    (sites (h !!! structure) ++ reflections_of (h !!! structure) margin)).
  rewrite !fmap_app in Hfields. destruct Hfields as (Hsp & Hfc & _).
  fold (augmented (h !!! structure) margin) in Hsp, Hfc.
  split; [|split; [|split; [|split; [|split; [reflexivity|split]]]]].
  - destruct (reflections_of _ _); simpl; [by apply take_ge|apply take_app_length].
  - destruct (reflections_of _ _); simpl; [reflexivity|by apply lookup_app_l].
  - by intros ->.
  - destruct (reflections_of _ _); [done|reflexivity].
  - by rewrite fmap_app.
  - by rewrite fmap_app.
Qed.

Lemma builder_keeps_input_witness :
  (@getAllCationPolyhedralWReflections ext_alone [struct_Li_face] 0 0.05 3).1 !! 0%nat
  = [struct_Li_face] !! 0%nat.
Proof.
  apply (@builder_keeps_input ext_alone [struct_Li_face] 0 0.05 3). simpl. lia.
Defined.

(** ** The classifier on what the builder returns *)


(** On instances of [Polyhedra] it stops at the first call of
    [get_connection]. *)
Lemma loop_on_Polyhedra (p : Polyhedra PeriodicSite) (os : list pyobj) :
  count_connectivity_of call_get_central_name call_get_connection (Obj_Polyhedra p :: os)
  = Raises (AttributeError "Polyhedra" "get_connection").
Proof. reflexivity. Qed.

Lemma loop_on_nothing :
  count_connectivity_of call_get_central_name call_get_connection [] = Returns ∅.
Proof. reflexivity. Qed.

Lemma builder_nonempty `{External} (h : list Structure) (structure : nat) (margin radius : Q) :
  cation_sites_of (h !!! structure) <> [] ->
  exists p ps, (getAllCationPolyhedralWReflections h structure margin radius).2 = p :: ps.
Proof.
  intros Hne.
  destruct (getAllCationPolyhedralWReflections h structure margin radius).2 as [|p ps] eqn:E;
    [|by eauto].
  apply (f_equal length) in E. rewrite builder_length in E. simpl in E.
  destruct (cation_sites_of (h !!! structure)); [done|simpl in E; lia].
Qed.

(** C1 on the code: the builder returns one element per cation site, the
    reflected copies included, whose first component starts with the
    central site; each element is a Python list and not a [Polyhedra], so
    for a structure with a cation site [count_connectivity] raises
    [AttributeError] at [polyhedra1.get_central_name()] and returns no
    mapping. *)
Theorem count_connectivity_raises `{External} (h : list Structure) (structure : nat) :
  cation_sites_of (h !!! structure) <> [] ->
  length (getAllCationPolyhedralWReflections h structure 0.05 3).2
    = (length (cation_sites_of (h !!! structure))
       + length (reflections_of (h !!! structure) 0.05))%nat
  /\ (fun p : polyhedral => head p.1)
       <$> (getAllCationPolyhedralWReflections h structure 0.05 3).2
     = (fun site => Some (Central site))
         <$> (cation_sites_of (h !!! structure) ++ reflections_of (h !!! structure) 0.05)
  /\ (count_connectivity h structure).2 = Raises (AttributeError "list" "get_central_name").
Proof.
  intros Hne. split; [apply builder_length|]. split; [apply builder_centres|].
  unfold count_connectivity.
  destruct (builder_nonempty h structure 0.05 3 Hne) as (p & ps & E).
  destruct (getAllCationPolyhedralWReflections h structure 0.05 3) as [h' out].
  simpl in E. subst out. reflexivity.
Qed.

Lemma count_connectivity_raises_witness :
  (@count_connectivity ext_alone [struct_Li_mid] 0).2
  = Raises (AttributeError "list" "get_central_name").
Proof.
  apply (@count_connectivity_raises ext_alone [struct_Li_mid] 0). simpl. discriminate.
Defined.

(** C2 on the code: on a list that is not empty the loop of the classifier
    raises [AttributeError] before it increments any counter, whether the
    elements are the lists the builder returns or instances of [Polyhedra];
    the single polyhedron of a structure with one lithium site is not
    reported as isolated. *)
Theorem classifier_loop_raises (polyhedraList : list pyobj) :
  polyhedraList <> [] ->
  (exists attr,
     count_connectivity_of call_get_central_name call_get_connection polyhedraList
     = Raises (AttributeError (class_name (List.hd (Obj_list ([], 0%Z)) polyhedraList)) attr))
  /\ count_connectivity_of call_get_central_name call_get_connection polyhedraList
     <> Returns {[ "Li" := [1; 0; 0; 0]%Z ]}
  /\ count_connectivity_of call_get_central_name call_get_connection
       [Obj_Polyhedra (mkPolyhedra site_Li_mid [])]
     = Raises (AttributeError "Polyhedra" "get_connection")
  /\ (@count_connectivity ext_alone [struct_Li_mid] 0).2
     = Raises (AttributeError "list" "get_central_name").
Proof.
  intros Hne. destruct polyhedraList as [|[p|l] os]; [done| |].
  - rewrite loop_on_Polyhedra. split; [by eexists|]. by repeat split.
  - assert (E : count_connectivity_of call_get_central_name call_get_connection
                  (Obj_list l :: os) = Raises (AttributeError "list" "get_central_name"))
      by reflexivity.
    rewrite E. split; [by eexists|]. by repeat split.
Qed.

Lemma classifier_loop_raises_witness :
  count_connectivity_of call_get_central_name call_get_connection
    [Obj_list ([Central site_Li_mid], 0%Z)]
  <> Returns {[ "Li" := [1; 0; 0; 0]%Z ]}.
Proof.
  apply (classifier_loop_raises [Obj_list ([Central site_Li_mid], 0%Z)]). discriminate.
Defined.

(** ** The loop of the classifier when the two methods return

    What lines 158-180 compute on a list of objects whose
    [get_central_name] and [get_connection] return. *)

Section LoopLogic.
Context {O : Type} (name : O -> string) (conn : O -> O -> Z).

(** A shared count falls in at most one bucket, and in one exactly when it
    is positive. *)
Lemma in_bucket_exclusive (c : Z) (i j : nat) :
  in_bucket i c = true -> in_bucket j c = true -> i = j.
Proof.
  destruct i as [|[|[|[|i]]]], j as [|[|[|[|j]]]]; simpl; try discriminate; try reflexivity;
    lia.
Qed.

Lemma in_bucket_positive (c : Z) :
  (exists i, in_bucket i c = true) <-> (0 < c)%Z.
Proof.
  split.
  - intros [[|[|[|[|i]]]] Hi]; simpl in Hi; try discriminate; lia.
  - intros Hc. destruct (Z.eqb_spec c 1) as [->|H1]; [by exists 1%nat|].
    destruct (Z.eqb_spec c 2) as [->|H2]; [by exists 2%nat|].
    exists 3%nat. simpl. lia.
Qed.

Lemma increment_at (i : nat) (cation : string) (m : gmap string (list Z)) (v : list Z) (n : Z) :
  m !! cation = Some v -> v !! i = Some n ->
  increment i cation m = Returns (<[cation := <[i := (n + 1)%Z]> v]> m).
Proof. intros Hm Hv. unfold increment. by rewrite Hm, Hv. Qed.

Lemma instances_cons (i : nat) (p q : O) (l : list O) :
  instances conn i p (q :: l)
  = ((if in_bucket i (conn p q) then 1 else 0) + instances conn i p l)%Z.
Proof.
  unfold instances. simpl. destruct (in_bucket i (conn p q)); simpl length; lia.
Qed.

Lemma connection_loop_counts (cation : string) (p : O) (l : list O)
    (m : gmap string (list Z)) (connected : bool) (a0 a1 a2 a3 : Z) :
  m !! cation = Some [a0; a1; a2; a3] ->
  connection_loop (fun p q => Returns (conn p q)) cation p l m connected
  = Returns (<[cation := [a0; (a1 + instances conn 1 p l)%Z; (a2 + instances conn 2 p l)%Z;
                          (a3 + instances conn 3 p l)%Z]]> m,
             connected || connected_to_any conn p l).
Proof.
  revert m connected a1 a2 a3.
  induction l as [|q l IH]; intros m connected a1 a2 a3 Hm.
  - simpl. unfold instances. simpl. rewrite !Z.add_0_r, orb_false_r.
    by rewrite insert_id.
  - rewrite !instances_cons. cbn [connection_loop connected_to_any existsb in_bucket].
    simpl mbind.
    destruct (Z.ltb_spec (conn p q) 0) as [Hneg|Hnn].
    { rewrite (IH m connected a1 a2 a3 Hm).
      replace (conn p q =? 1)%Z with false by lia.
      replace (conn p q =? 2)%Z with false by lia.
      replace (3 <=? conn p q)%Z with false by lia.
      replace (0 <? conn p q)%Z with false by lia.
      rewrite !Z.add_0_l. reflexivity. }
    destruct (Z.eqb_spec (conn p q) 1) as [H1|H1].
    { replace (conn p q =? 2)%Z with false by lia.
      replace (3 <=? conn p q)%Z with false by lia.
      replace (0 <? conn p q)%Z with true by lia.
      rewrite (increment_at 1 cation m _ a1 Hm) by reflexivity. simpl.
      rewrite (IH _ true (a1 + 1)%Z a2 a3) by apply lookup_insert_eq.
      rewrite insert_insert_eq, orb_true_r. simpl.
      by rewrite ?Z.add_0_l, ?Z.add_assoc. }
    destruct (Z.eqb_spec (conn p q) 2) as [H2|H2].
    { replace (3 <=? conn p q)%Z with false by lia.
      replace (0 <? conn p q)%Z with true by lia.
      simpl. rewrite (increment_at 2 cation m _ a2 Hm) by reflexivity. simpl.
      rewrite (IH _ true a1 (a2 + 1)%Z a3) by apply lookup_insert_eq.
      rewrite insert_insert_eq, orb_true_r. simpl.
      by rewrite ?Z.add_0_l, ?Z.add_assoc. }
    destruct (Z.leb_spec 3 (conn p q)) as [H3|H3].
    { replace (0 <? conn p q)%Z with true by lia.
      simpl. rewrite (increment_at 3 cation m _ a3 Hm) by reflexivity. simpl.
      rewrite (IH _ true a1 a2 (a3 + 1)%Z) by apply lookup_insert_eq.
      rewrite insert_insert_eq, orb_true_r. simpl.
      by rewrite ?Z.add_0_l, ?Z.add_assoc. }
    replace (0 <? conn p q)%Z with false by lia. simpl.
    rewrite (IH m connected a1 a2 a3 Hm). rewrite !Z.add_0_l. reflexivity.
Qed.
Lemma species_total_snoc (f : O -> Z) (cation : string) (ps : list O) (p : O) :
  species_total name f cation (ps ++ [p])
  = (species_total name f cation ps + if String.eqb (name p) cation then f p else 0)%Z.
Proof. induction ps as [|p' ps IH]; simpl; [lia|]. rewrite IH. lia. Qed.

Lemma species_total_absent (f : O -> Z) (cation : string) (ps : list O) :
  cation ∉ name <$> ps -> species_total name f cation ps = 0%Z.
Proof.
  induction ps as [|p ps IH]; simpl; [done|].
  rewrite not_elem_of_cons. intros [Hne Hout].
  rewrite IH by done. destruct (String.eqb_spec (name p) cation); [congruence|lia].
Qed.

Lemma species_vector_snoc_same (ps l : list O) (p : O) :
  species_vector name conn (name p) (ps ++ [p]) l
  = [ (species_total name (fun p => isolated conn p l) (name p) ps + isolated conn p l)%Z;
      (species_total name (fun p => instances conn 1 p l) (name p) ps + instances conn 1 p l)%Z;
      (species_total name (fun p => instances conn 2 p l) (name p) ps + instances conn 2 p l)%Z;
      (species_total name (fun p => instances conn 3 p l) (name p) ps + instances conn 3 p l)%Z ].
Proof. unfold species_vector. by rewrite !species_total_snoc, String.eqb_refl. Qed.

Lemma species_vector_snoc_other (cation : string) (ps l : list O) (p : O) :
  name p <> cation ->
  species_vector name conn cation (ps ++ [p]) l = species_vector name conn cation ps l.
Proof.
  intros Hne. unfold species_vector. rewrite !species_total_snoc.
  destruct (String.eqb_spec (name p) cation); [done|]. by rewrite !Z.add_0_r.
Qed.

(** One turn of the outer loop. *)
Lemma polyhedra_loop_step (l done : list O) (p : O) (m : gmap string (list Z)) :
  describes name conn m done l ->
  exists m',
    (forall rest,
       polyhedra_loop (fun p => Returns (name p)) (fun p q => Returns (conn p q)) l (p :: rest) m
       = polyhedra_loop (fun p => Returns (name p)) (fun p q => Returns (conn p q)) l rest m')
    /\ describes name conn m' (done ++ [p]) l.
Proof.
  intros Hm.
  set (m0 := if negb (bool_decide (name p ∈ dom m)) then <[name p := [0; 0; 0; 0]%Z]> m else m).
  assert (Hm0 : m0 !! name p = Some (species_vector name conn (name p) done l)).
  { unfold m0. case_bool_decide as Hdom; simpl.
    - apply elem_of_dom in Hdom as [v Hv]. rewrite Hv. rewrite Hm in Hv.
      by case_bool_decide.
    - rewrite lookup_insert_eq. apply not_elem_of_dom in Hdom. rewrite Hm in Hdom.
      case_bool_decide as Hin; [done|]. unfold species_vector.
      by rewrite !species_total_absent. }
  assert (Hother : forall c, c <> name p -> m0 !! c = m !! c).
  { intros c Hc. unfold m0. destruct (negb _); [|done]. by rewrite lookup_insert_ne. }
  eexists (<[name p := species_vector name conn (name p) (done ++ [p]) l]> m0). split.
  - intros rest. cbn [polyhedra_loop]. simpl mbind. fold m0.
    rewrite (connection_loop_counts _ _ _ _ _ _ _ _ _ Hm0). simpl.
    unfold isolated. destruct (connected_to_any conn p l) eqn:Hc; simpl.
    + f_equal. rewrite species_vector_snoc_same.
      unfold isolated. rewrite Hc. by rewrite Z.add_0_r.
    + erewrite increment_at; [|apply lookup_insert_eq|reflexivity]. simpl.
      f_equal. rewrite !insert_insert_eq. rewrite species_vector_snoc_same.
      unfold isolated. by rewrite Hc.
  - intros c. destruct (decide (c = name p)) as [->|Hne].
    + rewrite lookup_insert_eq, bool_decide_eq_true_2; [done|].
      rewrite fmap_app, elem_of_app. right. left.
    + rewrite lookup_insert_ne, Hother, Hm by done.
      rewrite species_vector_snoc_other by done.
      apply (f_equal (fun b : bool => if b then _ else _)).
      apply bool_decide_ext. rewrite fmap_app, elem_of_app.
      split; [tauto|]. intros [Hin | Hin]; [done|].
      apply list_elem_of_singleton in Hin. done.
Qed.

Lemma polyhedra_loop_describes (l todo done : list O) (m : gmap string (list Z)) :
  describes name conn m done l ->
  exists m',
    polyhedra_loop (fun p => Returns (name p)) (fun p q => Returns (conn p q)) l todo m
    = Returns m'
    /\ describes name conn m' (done ++ todo) l.
Proof.
  revert done m. induction todo as [|p rest IH]; intros done m Hm.
  - exists m. by rewrite app_nil_r.
  - destruct (polyhedra_loop_step l done p m Hm) as (m1 & Hstep & Hm1).
    destruct (IH (done ++ [p]) m1 Hm1) as (m' & Hrun & Hm').
    exists m'. rewrite Hstep, Hrun. split; [done|]. by rewrite <- app_assoc in Hm'.
Qed.

(** The mapping returned holds, for each species that occurs, the number of
    its isolated elements and the numbers of its point, edge and face
    instances, and nothing else. *)
Lemma loop_histogram (l : list O) :
  exists m,
    count_connectivity_of (fun p => Returns (name p)) (fun p q => Returns (conn p q)) l
    = Returns m
    /\ describes name conn m l l.
Proof.
  unfold count_connectivity_of.
  apply (polyhedra_loop_describes l l [] ∅). intros cation.
  rewrite lookup_empty. by rewrite bool_decide_eq_false_2 by (simpl; apply not_elem_of_nil).
Qed.
End LoopLogic.

(** On instances of [Polyhedra], had the loop called [get_connectivity]. *)
Lemma loop_with_get_connectivity (site_eq : PeriodicSite -> PeriodicSite -> bool)
    (l : list (Polyhedra PeriodicSite)) :
  exists m,
    count_connectivity_of (fun p => Returns (get_central_name p))
      (fun p q => Returns (get_connectivity site_eq p q)) l
    = Returns m
    /\ describes get_central_name (get_connectivity site_eq) m l l.
Proof. apply loop_histogram. Qed.

(** ** Centres and peripheral ions of the elements built *)

Lemma elem_of_List_filter {A : Type} (f : A -> bool) (l : list A) (x : A) :
  x ∈ List.filter f l <-> x ∈ l /\ f x = true.
Proof. rewrite !list_elem_of_In. apply filter_In. Qed.

Lemma centres_are_cations (s : Structure) (margin : Q) (site : PeriodicSite) :
  site ∈ cation_sites_of s ++ reflections_of s margin ->
  is_anion (species_string site) = false.
Proof.
  rewrite elem_of_app. intros [Hin | Hin].
  - apply elem_of_List_filter in Hin as [_ Hc]. by apply negb_true_iff.
  - apply list_elem_of_bind in Hin as (site0 & Hr & Hin0).
    apply checkReflections_keeps in Hr as [-> _].
    apply elem_of_List_filter in Hin0 as [_ Hc]. by apply negb_true_iff.
Qed.

Lemma builder_elements `{External} (h : list Structure) (structure : nat) (margin radius : Q)
    (p : polyhedral) :
  p ∈ (getAllCationPolyhedralWReflections h structure margin radius).2 ->
  exists (s : Structure) (site : PeriodicSite),
    site ∈ cation_sites_of (h !!! structure) ++ reflections_of (h !!! structure) margin
    /\ p = polyhedral_of s radius site.
Proof.
  rewrite builder_run.
  destruct (reflections_of (h !!! structure) margin) as [|r0 rs]; simpl snd;
    rewrite ?app_nil_r; intros Hin; apply list_elem_of_fmap in Hin as (site & -> & Hin);
    eauto.
Qed.

(** C5: in every element the builder returns, the first component is the
    central site followed by the (site, distance) entries kept; the central
    site is a cation, every entry kept is an anion, so the central site is
    the site of none of them; an element with no entry at all is returned
    for a cation that has no neighbour, and a polyhedron without peripheral
    ions shares none with any polyhedron. *)
Theorem centre_not_peripheral `{External} (h : list Structure) (structure : nat)
    (margin radius : Q) (p : polyhedral) :
  p ∈ (getAllCationPolyhedralWReflections h structure margin radius).2 ->
  (exists (centre : PeriodicSite) (peripheral : list (PeriodicSite * Q)),
     p.1 = Central centre :: (Bond <$> peripheral)
     /\ is_anion (species_string centre) = false
     /\ Forall (fun entry => is_anion (species_string entry.1) = true /\ entry.1 <> centre)
          peripheral)
  /\ (@getAllCationPolyhedralWReflections ext_alone [struct_Li_mid] 0 0.05 3).2
     = [([Central site_Li_mid], 0%Z)]
  /\ (forall (site_eq : PeriodicSite -> PeriodicSite -> bool) (centre : PeriodicSite)
             (other : Polyhedra PeriodicSite),
        get_connectivity site_eq (mkPolyhedra centre []) other
        = if site_eq centre (_center other) then (-1)%Z else 0%Z).
Proof.
  intros Hin. split; [|split; [reflexivity|]]; cycle 1.
  { intros site_eq centre other. by rewrite get_connectivity_count. }
  apply builder_elements in Hin as (s & site & Hsite & ->).
  apply centres_are_cations in Hsite.
  eexists site, _. split; [apply polyhedral_of_sites|]. split; [done|].
  apply Forall_forall. intros entry Hentry.
  apply elem_of_List_filter in Hentry as [Hentry _].
  apply elem_of_List_filter in Hentry as [_ Hkept].
  unfold kept in Hkept. apply andb_true_iff in Hkept as [Hanion _].
  split; [done|]. intros Heq. rewrite Heq in Hanion. congruence.
Qed.

Lemma centre_not_peripheral_witness :
  exists (centre : PeriodicSite) (peripheral : list (PeriodicSite * Q)),
    [Central site_Li; Bond (site_O1, 2%Q); Bond (site_O2, 2%Q); Bond (site_O3, 2%Q);
     Bond (site_O4, 4%Q)] = Central centre :: (Bond <$> peripheral)
    /\ is_anion (species_string centre) = false
    /\ Forall (fun entry => is_anion (species_string entry.1) = true /\ entry.1 <> centre)
         peripheral.
Proof.
  apply (@centre_not_peripheral ext_LiO4 [struct_LiO4] 0 0.05 5
           ([Central site_Li; Bond (site_O1, 2%Q); Bond (site_O2, 2%Q); Bond (site_O3, 2%Q);
             Bond (site_O4, 4%Q)], 3%Z)).
  vm_compute. left.
Defined.

(** ** The bond weight threshold *)

(** What lines 260-267 keep for a cation other than the probe species:
    the kept neighbours of weight above 0. *)
Lemma builder_threshold `{External} (s : Structure) (radius : Q) (site : PeriodicSite)
    (entry : PeriodicSite * Q) :
  String.eqb (species_string site) "Rn" = false ->
  Bond entry ∈ (polyhedral_of s radius site).1
  <-> entry ∈ List.filter (kept radius) (get_neighbors s site radius)
      /\ (0 < calculate_bond_weight entry.2
                (List.filter (kept radius) (get_neighbors s site radius)).*2)%Q.
Proof.
  intros HRn. rewrite polyhedral_of_sites, elem_of_cons, list_elem_of_fmap.
  split.
  - intros [Hc | (e & He & Hin)]; [discriminate Hc|]. injection He as <-.
    apply elem_of_List_filter in Hin as [Hin Hb]. split; [done|].
    unfold bonded in Hb. rewrite HRn in Hb. by apply Qlt_bool_iff.
  - intros [Hin Hw]. right. exists entry. split; [done|].
    apply elem_of_List_filter. split; [done|].
    unfold bonded. rewrite HRn. by apply Qlt_bool_iff.
Qed.

(** What [get_polyhedra] keeps: the kept neighbours of weight above 1e-5. *)
Lemma get_polyhedra_threshold `{External} (s : Structure) (radius : Q) (site : PeriodicSite)
    (entry : PeriodicSite * Q) :
  entry ∈ _peripheralIons (get_polyhedra s site radius)
  <-> entry ∈ List.filter (kept radius) (get_neighbors s site radius)
      /\ (1 # 100000 < calculate_bond_weight entry.2
                (List.filter (kept radius) (get_neighbors s site radius)).*2)%Q.
Proof.
  unfold get_polyhedra. rewrite neighbor_loop_filter. simpl.
  rewrite peripheral_loop_filter. simpl.
  rewrite elem_of_List_filter, Qlt_bool_iff. reflexivity.
Qed.

(** C4 on the code: the builder keeps a neighbour whose bond weight is
    above 0, not above 1e-5.  With neighbours at distances 2, 2, 2 and 4
    within radius 5 and a weight of 1e-27 at distance 4, the element built
    for the lithium site holds all four neighbours, the one at distance 4
    included, while [get_polyhedra] keeps the three at distance 2. *)
Theorem builder_keeps_weak_bond :
  (@getAllCationPolyhedralWReflections ext_LiO4 [struct_LiO4] 0 0.05 5).2
  = [([Central site_Li; Bond (site_O1, 2%Q); Bond (site_O2, 2%Q); Bond (site_O3, 2%Q);
       Bond (site_O4, 4%Q)], 3%Z)]
  /\ (@calculate_bond_weight ext_LiO4 4 [2; 2; 2; 4] <= 1 # 100000)%Q
  /\ _peripheralIons (@get_polyhedra ext_LiO4 struct_LiO4 site_Li 5)
     = [(site_O1, 2%Q); (site_O2, 2%Q); (site_O3, 2%Q)].
Proof. split; [reflexivity|]. split; [|reflexivity]. by vm_compute. Qed.

(** ** Radius 0 *)

Lemma List_filter_none {A : Type} (f : A -> bool) (l : list A) :
  (forall x, x ∈ l -> f x = false) -> List.filter f l = [].
Proof.
  induction l as [|x l IH]; intros Hf; simpl; [reflexivity|].
  rewrite (Hf x) by left. apply IH. intros y Hy. apply Hf. by right.
Qed.




(** ** No validation of the margin and of the radius *)



(** * Further properties *)

(** ** The mapping the loop of the classifier returns *)

Section HistogramFacts.
Context {O : Type} (name : O -> string) (conn : O -> O -> Z).

Lemma loop_result (l : list O) (m : gmap string (list Z)) :
  count_connectivity_of (fun p => Returns (name p)) (fun p q => Returns (conn p q)) l
  = Returns m ->
  describes name conn m l l.
Proof.
  intros Hrun. destruct (loop_histogram name conn l) as (m' & Hrun' & Hm').
  rewrite Hrun in Hrun'. by injection Hrun' as ->.
Qed.

Lemma species_total_add (f g : O -> Z) (cation : string) (ps : list O) :
  species_total name (fun p => (f p + g p)%Z) cation ps
  = (species_total name f cation ps + species_total name g cation ps)%Z.
Proof.
  induction ps as [|p ps IH]; simpl; [reflexivity|].
  rewrite IH. destruct (String.eqb (name p) cation); lia.
Qed.

Lemma species_total_ext (f g : O -> Z) (cation : string) (ps : list O) :
  (forall p, p ∈ ps -> f p = g p) ->
  species_total name f cation ps = species_total name g cation ps.
Proof.
  induction ps as [|p ps IH]; intros Hfg; simpl; [reflexivity|].
  rewrite IH by (intros q Hq; apply Hfg; by right).
  rewrite (Hfg p) by left. reflexivity.
Qed.

Lemma species_total_nonneg (f : O -> Z) (cation : string) (ps : list O) :
  (forall p, (0 <= f p)%Z) -> (0 <= species_total name f cation ps)%Z.
Proof.
  intros Hf. induction ps as [|p ps IH]; simpl; [lia|].
  specialize (Hf p). destruct (String.eqb (name p) cation); lia.
Qed.

Lemma species_total_one (cation : string) (ps : list O) :
  species_total name (fun _ => 1%Z) cation ps = members name cation ps.
Proof.
  unfold members. induction ps as [|p ps IH]; simpl; [reflexivity|].
  rewrite IH. destruct (String.eqb (name p) cation); simpl length; lia.
Qed.

Lemma instances_positives (p : O) (l : list O) :
  (instances conn 1 p l + instances conn 2 p l + instances conn 3 p l)%Z
  = positives conn p l.
Proof.
  induction l as [|q l IH]; [reflexivity|].
  rewrite !instances_cons. unfold positives in *. cbn [List.filter in_bucket].
  destruct (Z.eqb_spec (conn p q) 1), (Z.eqb_spec (conn p q) 2),
    (Z.leb_spec 3 (conn p q)), (Z.ltb_spec 0 (conn p q)); cbn [length]; lia.
Qed.

Lemma connected_positives (p : O) (l : list O) :
  connected_to_any conn p l = true <-> (0 < positives conn p l)%Z.
Proof.
  unfold connected_to_any, positives. induction l as [|q l IH]; simpl.
  - split; [discriminate|lia].
  - destruct (0 <? conn p q)%Z; simpl; [|apply IH]. split; [lia|done].
Qed.

(** X1: on a list of objects whose two methods return, the loop of
    [count_connectivity] returns a mapping (it raises nothing) that holds
    exactly the species of the list, and for each the vector
    [isolated, point, edge, face]: the number of its elements with no
    positive comparison, and the numbers of ordered pairs (element of the
    species, element of the list) whose comparison is 1, is 2, is 3 or
    more. *)
Theorem classifier_histogram (l : list O) :
  exists m,
    count_connectivity_of (fun p => Returns (name p)) (fun p q => Returns (conn p q)) l
    = Returns m
    /\ forall cation,
         m !! cation
         = if bool_decide (cation ∈ name <$> l)
           then Some [ species_total name (fun p => isolated conn p l) cation l;
                       species_total name (fun p => instances conn 1 p l) cation l;
                       species_total name (fun p => instances conn 2 p l) cation l;
                       species_total name (fun p => instances conn 3 p l) cation l ]
           else None.
Proof. apply loop_histogram. Qed.

(** X2: every vector of the mapping returned has four entries, none
    negative, and the keys of the mapping are the species of the list. *)
Theorem classifier_vectors (l : list O) (m : gmap string (list Z)) :
  count_connectivity_of (fun p => Returns (name p)) (fun p q => Returns (conn p q)) l
  = Returns m ->
  (forall cation, cation ∈ dom m <-> cation ∈ name <$> l)
  /\ (forall cation v, m !! cation = Some v ->
        length v = 4%nat /\ Forall (fun n => (0 <= n)%Z) v).
Proof.
  intros Hm%loop_result. split.
  - intros cation. rewrite elem_of_dom, Hm. case_bool_decide as Hin.
    + split; [done|]. intros _. by eexists.
    + split; [by intros [v Hv]|done].
  - intros cation v. rewrite Hm. case_bool_decide; [|done].
    intros [= <-]. split; [reflexivity|].
    unfold species_vector. repeat constructor; apply species_total_nonneg; intros p;
      unfold isolated, instances; try lia.
    destruct (connected_to_any conn p l); lia.
Qed.

(** X3: in the vector of a species, point + edge + face is the number of
    ordered pairs (element of the species, element of the list) whose
    comparison is positive, each counted once; and the isolated count is the
    number of elements of the species minus those with a positive
    comparison. *)
Theorem classifier_conservation (l : list O) (m : gmap string (list Z))
    (cation : string) (i pt e f : Z) :
  count_connectivity_of (fun p => Returns (name p)) (fun p q => Returns (conn p q)) l
  = Returns m ->
  m !! cation = Some [i; pt; e; f] ->
  (pt + e + f)%Z = species_total name (fun p => positives conn p l) cation l
  /\ (i + species_total name
            (fun p => if (0 <? positives conn p l)%Z then 1 else 0) cation l)%Z
     = members name cation l.
Proof.
  intros Hm%loop_result. rewrite Hm. case_bool_decide; [|done].
  unfold species_vector. intros [= <- <- <- <-]. split.
  - rewrite <- !species_total_add. apply species_total_ext. intros p _.
    apply instances_positives.
  - rewrite <- species_total_add, <- species_total_one.
    apply species_total_ext. intros p _. unfold isolated.
    pose proof (connected_positives p l) as Hc.
    destruct (connected_to_any conn p l).
    + replace (0 <? positives conn p l)%Z with true; [reflexivity|].
      symmetry. apply Z.ltb_lt. by apply Hc.
    + replace (0 <? positives conn p l)%Z with false; [reflexivity|].
      symmetry. apply Z.ltb_ge. destruct (Z.lt_ge_cases 0 (positives conn p l)) as [Hlt|Hge];
        [|lia]. apply Hc in Hlt. discriminate Hlt.
Qed.
End HistogramFacts.


Section HistogramOrder.
Context {O : Type} (name : O -> string) (conn : O -> O -> Z).

Lemma vector_eq (a b c d a' b' c' d' : Z) :
  a = a' -> b = b' -> c = c' -> d = d' -> [a; b; c; d] = [a'; b'; c'; d'].
Proof. by intros -> -> -> ->. Qed.

Lemma species_total_zero (cation : string) (ps : list O) :
  species_total name (fun _ => 0%Z) cation ps = 0%Z.
Proof.
  induction ps as [|p ps IH]; simpl; [reflexivity|]. rewrite IH.
  by destruct (String.eqb (name p) cation).
Qed.

Lemma species_total_perm (f : O -> Z) (cation : string) (ps ps' : list O) :
  ps ≡ₚ ps' -> species_total name f cation ps = species_total name f cation ps'.
Proof.
  induction 1 as [|p ps ps' _ IH|p q ps|ps ps' ps'' _ IH1 _ IH2]; simpl.
  - reflexivity.
  - by rewrite IH.
  - lia.
  - by rewrite IH1.
Qed.

Lemma instances_perm (i : nat) (p : O) (l l' : list O) :
  l ≡ₚ l' -> instances conn i p l = instances conn i p l'.
Proof.
  induction 1 as [|q l l' _ IH|q q' l|l l' l'' _ IH1 _ IH2].
  - reflexivity.
  - by rewrite !instances_cons, IH.
  - rewrite !instances_cons. lia.
  - by rewrite IH1.
Qed.

Lemma connected_to_any_perm (p : O) (l l' : list O) :
  l ≡ₚ l' -> connected_to_any conn p l = connected_to_any conn p l'.
Proof.
  unfold connected_to_any.
  induction 1 as [|q l l' _ IH|q q' l|l l' l'' _ IH1 _ IH2]; simpl.
  - reflexivity.
  - by rewrite IH.
  - by rewrite !orb_assoc, (orb_comm (0 <? conn p q')%Z).
  - by rewrite IH1.
Qed.

Lemma species_vector_perm (cation : string) (l l' : list O) :
  l ≡ₚ l' -> species_vector name conn cation l l = species_vector name conn cation l' l'.
Proof.
  intros Hp. unfold species_vector.
  rewrite !(species_total_perm _ cation l l' Hp).
  apply vector_eq; apply species_total_ext; intros p _;
    [unfold isolated; by rewrite (connected_to_any_perm p l l' Hp)|..];
    by apply instances_perm.
Qed.

(** X4: the mapping returned does not depend on the order of the list. *)
Theorem classifier_order (l l' : list O) :
  l ≡ₚ l' ->
  count_connectivity_of (fun p => Returns (name p)) (fun p q => Returns (conn p q)) l
  = count_connectivity_of (fun p => Returns (name p)) (fun p q => Returns (conn p q)) l'.
Proof.
  intros Hp.
  destruct (loop_histogram name conn l) as (m & -> & Hm).
  destruct (loop_histogram name conn l') as (m' & -> & Hm').
  f_equal. apply map_eq. intros cation. rewrite Hm, Hm'.
  rewrite (species_vector_perm cation l l' Hp).
  apply (f_equal (fun b : bool => if b then _ else _)).
  apply bool_decide_ext. by rewrite Hp.
Qed.

(** X5: when no comparison between two elements of the list is positive,
    the vector of each species of the list is its number of elements
    followed by three zeros. *)
Theorem classifier_all_isolated (l : list O) (m : gmap string (list Z)) (cation : string) :
  count_connectivity_of (fun p => Returns (name p)) (fun p q => Returns (conn p q)) l
  = Returns m ->
  (forall p q, p ∈ l -> q ∈ l -> (conn p q <= 0)%Z) ->
  cation ∈ name <$> l ->
  m !! cation = Some [members name cation l; 0; 0; 0]%Z.
Proof.
  intros Hm%loop_result Hconn Hin. rewrite Hm, bool_decide_eq_true_2 by done.
  assert (Hnone : forall p i, p ∈ l -> instances conn (S i) p l = 0%Z).
  { intros p i Hp. unfold instances. rewrite List_filter_none; [reflexivity|].
    intros q Hq. specialize (Hconn p q Hp Hq).
    destruct i as [|[|[|i]]]; simpl; lia. }
  unfold species_vector. f_equal. apply vector_eq.
  - rewrite <- species_total_one. apply species_total_ext. intros p Hp.
    unfold isolated. replace (connected_to_any conn p l) with false; [reflexivity|].
    symmetry. unfold connected_to_any. apply not_true_iff_false.
    rewrite existsb_exists. intros (q & Hq%list_elem_of_In & Hpos).
    specialize (Hconn p q Hp Hq). lia.
  - rewrite <- (species_total_zero cation l). apply species_total_ext.
    intros p Hp. by apply Hnone.
  - rewrite <- (species_total_zero cation l). apply species_total_ext.
    intros p Hp. by apply Hnone.
  - rewrite <- (species_total_zero cation l). apply species_total_ext.
    intros p Hp. by apply Hnone.
Qed.
End HistogramOrder.


(** ** The exceptions of the loop of the classifier *)

Section LoopExceptions.
Context {O : Type}.
Context (m_get_central_name : O -> outcome string).
Context (m_get_connection : O -> O -> outcome Z).

Lemma increment_four_wide (i : nat) (cation : string) (m : gmap string (list Z)) :
  (i < 4)%nat -> four_wide m -> is_Some (m !! cation) ->
  exists m', increment i cation m = Returns m'
             /\ four_wide m' /\ is_Some (m' !! cation).
Proof.
  intros Hi Hwide [v Hv]. unfold increment. rewrite Hv.
  pose proof (Hwide cation v Hv) as Hlen.
  destruct (lookup_lt_is_Some_2 v i) as [n Hn]; [lia|]. rewrite Hn.
  eexists. split; [reflexivity|]. split.
  - intros c w. destruct (decide (c = cation)) as [->|Hne].
    + rewrite lookup_insert_eq. intros [= <-]. by rewrite length_insert.
    + rewrite lookup_insert_ne by done. apply Hwide.
  - rewrite lookup_insert_eq. by eexists.
Qed.

Lemma conditional_increment (b : bool) (i : nat) (cation : string)
    (m : gmap string (list Z)) (connected : bool) :
  (i < 4)%nat -> four_wide m -> is_Some (m !! cation) ->
  exists m' connected',
    (if b then connections ← increment i cation m; Returns (connections, true)
     else Returns (m, connected)) = Returns (m', connected')
    /\ four_wide m' /\ is_Some (m' !! cation).
Proof.
  intros Hi Hwide Hsome. destruct b; [|by eauto].
  destruct (increment_four_wide i cation m Hi Hwide Hsome) as (m' & -> & Hw & Hs).
  by eauto.
Qed.

Lemma connection_loop_exceptions (cation : string) (p : O) (l : list O)
    (m : gmap string (list Z)) (connected : bool) :
  four_wide m -> is_Some (m !! cation) ->
  match connection_loop m_get_connection cation p l m connected with
  | Returns (m', _) => four_wide m' /\ is_Some (m' !! cation)
  | Raises e => exists q, q ∈ l /\ m_get_connection p q = Raises e
  end.
Proof.
  revert m connected. induction l as [|q l IH]; intros m connected Hwide Hsome;
    [done|]. cbn [connection_loop].
  assert (Hlift : forall m1 b1, four_wide m1 -> is_Some (m1 !! cation) ->
    match connection_loop m_get_connection cation p l m1 b1 with
    | Returns (m', _) => four_wide m' /\ is_Some (m' !! cation)
    | Raises e => exists q0, q0 ∈ q :: l /\ m_get_connection p q0 = Raises e
    end).
  { intros m1 b1 Hw1 Hs1. specialize (IH m1 b1 Hw1 Hs1).
    destruct (connection_loop _ _ _ _ _ _) as [[m' b']|e]; [done|].
    destruct IH as (q0 & Hq0 & He). exists q0. split; [by right|done]. }
  destruct (m_get_connection p q) as [c|e] eqn:Ec; simpl.
  - destruct (c <? 0)%Z; [by apply Hlift|].
    destruct (conditional_increment (c =? 1)%Z 1 cation m connected)
      as (m1 & b1 & -> & Hw1 & Hs1); [lia|done|done|]. simpl.
    destruct (conditional_increment (c =? 2)%Z 2 cation m1 b1)
      as (m2 & b2 & -> & Hw2 & Hs2); [lia|done|done|]. simpl.
    destruct (conditional_increment (3 <=? c)%Z 3 cation m2 b2)
      as (m3 & b3 & -> & Hw3 & Hs3); [lia|done|done|]. simpl.
    by apply Hlift.
  - exists q. split; [left|done].
Qed.

Lemma polyhedra_loop_exceptions (l todo : list O) (m : gmap string (list Z)) :
  four_wide m ->
  match polyhedra_loop m_get_central_name m_get_connection l todo m with
  | Returns m' => four_wide m'
  | Raises e =>
      (exists p, p ∈ todo /\ m_get_central_name p = Raises e)
      \/ (exists p q, p ∈ todo /\ q ∈ l /\ m_get_connection p q = Raises e)
  end.
Proof.
  revert m. induction todo as [|p rest IH]; intros m Hwide; [done|].
  cbn [polyhedra_loop].
  destruct (m_get_central_name p) as [cation|e] eqn:En; simpl;
    [|left; exists p; split; [left|done]].
  set (m0 := if negb (bool_decide (cation ∈ dom m))
             then <[cation := [0; 0; 0; 0]%Z]> m else m).
  assert (Hw0 : four_wide m0).
  { unfold m0. destruct (negb _); [|done]. intros c v.
    destruct (decide (c = cation)) as [->|Hne].
    - rewrite lookup_insert_eq. by intros [= <-].
    - rewrite lookup_insert_ne by done. apply Hwide. }
  assert (Hs0 : is_Some (m0 !! cation)).
  { unfold m0. case_bool_decide as Hdom; simpl.
    - by apply elem_of_dom.
    - rewrite lookup_insert_eq. by eexists. }
  pose proof (connection_loop_exceptions cation p l m0 false Hw0 Hs0) as Hinner.
  destruct (connection_loop _ _ _ _ _ _) as [[m1 b1]|e]; simpl.
  - destruct Hinner as [Hw1 Hs1].
    destruct (conditional_increment (negb b1) 0 cation m1 b1)
      as (m2 & b2 & Hinc & Hw2 & _); [lia|done|done|].
    assert (Hinc' : (if negb b1 then increment 0 cation m1 else Returns m1) = Returns m2).
    { destruct (negb b1); simpl in Hinc.
      - destruct (increment 0 cation m1); simpl in Hinc; congruence.
      - congruence. }
    rewrite Hinc'. simpl. specialize (IH m2 Hw2).
    destruct (polyhedra_loop _ _ _ _ _) as [m'|e]; [done|].
    destruct IH as [(p0 & Hp0 & He)|(p0 & q0 & Hp0 & Hq0 & He)].
    + left. exists p0. split; [by right|done].
    + right. exists p0, q0. split; [by right|done].
  - destruct Hinner as (q & Hq & He). right. exists p, q. split; [left|done].
Qed.

(** X6: the loop of [count_connectivity] raises no exception of its own
    (no [KeyError], no [IndexError] from [connections[cation][i] += 1]): an
    exception it raises was raised by [get_central_name] on an element of
    the list or by [get_connection] on two of them. *)
Theorem classifier_exceptions (l : list O) (e : exn) :
  count_connectivity_of m_get_central_name m_get_connection l = Raises e ->
  (exists p, p ∈ l /\ m_get_central_name p = Raises e)
  \/ (exists p q, p ∈ l /\ q ∈ l /\ m_get_connection p q = Raises e).
Proof.
  intros Hrun. unfold count_connectivity_of in Hrun.
  assert (Hwide : four_wide ∅) by (intros c v; by rewrite lookup_empty).
  pose proof (polyhedra_loop_exceptions l l ∅ Hwide) as Hloop.
  by rewrite Hrun in Hloop.
Qed.
End LoopExceptions.

Lemma classifier_exceptions_witness :
  (exists p, p ∈ [Obj_Polyhedra (mkPolyhedra site_Li_mid [])]
             /\ call_get_central_name p = Raises (AttributeError "Polyhedra" "get_connection"))
  \/ (exists p q, p ∈ [Obj_Polyhedra (mkPolyhedra site_Li_mid [])]
                  /\ q ∈ [Obj_Polyhedra (mkPolyhedra site_Li_mid [])]
                  /\ call_get_connection p q
                     = Raises (AttributeError "Polyhedra" "get_connection")).
Proof.
  apply (classifier_exceptions call_get_central_name call_get_connection
           [Obj_Polyhedra (mkPolyhedra site_Li_mid [])]).
  reflexivity.
Defined.

(** ** Samples of the mapping returned *)

Lemma sample_run :
  count_connectivity_of (fun p => Returns (sample_name p))
    (fun p q => Returns (sharedCount p q)) sample_list
  = Returns sample_histogram.
Proof. vm_compute. reflexivity. Qed.

Lemma classifier_vectors_witness :
  length [0; 0; 2; 0]%Z = 4%nat /\ Forall (fun n => (0 <= n)%Z) [0; 0; 2; 0]%Z.
Proof.
  apply (proj2 (classifier_vectors sample_name sharedCount sample_list sample_histogram
                  sample_run) "Li").
  by vm_compute.
Defined.

Lemma classifier_conservation_witness :
  (0 + 2 + 0)%Z = species_total sample_name (fun p => positives sharedCount p sample_list)
                    "Li" sample_list
  /\ (0 + species_total sample_name
            (fun p => if (0 <? positives sharedCount p sample_list)%Z then 1 else 0)
            "Li" sample_list)%Z
     = members sample_name "Li" sample_list.
Proof.
  apply (classifier_conservation sample_name sharedCount sample_list sample_histogram
           "Li" 0 0 2 0); [apply sample_run|by vm_compute].
Defined.

Lemma classifier_order_witness :
  count_connectivity_of (fun p => Returns (sample_name p))
    (fun p q => Returns (sharedCount p q)) [poly_alone; poly_bcd; poly_abc]
  = count_connectivity_of (fun p => Returns (sample_name p))
      (fun p q => Returns (sharedCount p q)) sample_list.
Proof.
  apply (classifier_order sample_name sharedCount).
  symmetry. apply (Permutation_rev sample_list).
Defined.

Lemma classifier_all_isolated_witness :
  ({[ "Li" := [1; 0; 0; 0]%Z; "Co" := [1; 0; 0; 0]%Z ]} : gmap string (list Z)) !! "Li"
  = Some [members sample_name "Li" [poly_once; poly_alone]; 0; 0; 0]%Z.
Proof.
  apply (classifier_all_isolated sample_name sharedCount [poly_once; poly_alone]).
  - vm_compute. reflexivity.
  - intros p q Hp Hq. rewrite !elem_of_cons, elem_of_nil in Hp, Hq.
    destruct Hp as [->|[->|[]]], Hq as [->|[->|[]]]; by vm_compute.
  - vm_compute. left.
Defined.


(** ** More on shared peripheral ions *)

Section GetConnectivityOrder.
Context {S : Type} (site_eq : S -> S -> bool).

Lemma existsb_perm (f : S -> bool) (l l' : list S) :
  l ≡ₚ l' -> existsb f l = existsb f l'.
Proof.
  induction 1 as [|x l l' _ IH|x y l|l l' l'' _ IH1 _ IH2]; simpl.
  - reflexivity.
  - by rewrite IH.
  - by rewrite !orb_assoc, (orb_comm (f y)).
  - by rewrite IH1.
Qed.

Lemma filter_length_perm (f g : S -> bool) (l l' : list S) :
  (forall x, f x = g x) -> l ≡ₚ l' ->
  length (List.filter f l) = length (List.filter g l').
Proof.
  intros Hfg Hp. rewrite (List.filter_ext f g Hfg l).
  induction Hp as [|x l l' _ IH|x y l|l l' l'' _ IH1 _ IH2]; simpl.
  - reflexivity.
  - destruct (g x); simpl; by rewrite IH.
  - by destruct (g x), (g y).
  - by rewrite IH1.
Qed.

Lemma shared_on_sites (sites1 sites2 : list (S * Q)) :
  length (List.filter (fun site1 => existsb (fun site2 => site_eq site1.1 site2.1) sites2)
            sites1)
  = length (List.filter (fun x => existsb (site_eq x) sites2.*1) sites1.*1).
Proof.
  assert (Hex : forall x, existsb (fun site2 => site_eq x site2.1) sites2
                          = existsb (site_eq x) sites2.*1).
  { intros x. induction sites2 as [|site2 sites2 IH]; simpl; [reflexivity|]. by rewrite IH. }
  induction sites1 as [|site1 sites1 IH]; simpl; [reflexivity|].
  rewrite Hex. destruct (existsb _ _); simpl; by rewrite IH.
Qed.

(** X7: the count depends on the sites only, not on the distances stored
    with them nor on the order of either list of peripheral ions. *)
Theorem get_connectivity_sites_only (a a' b b' : Polyhedra S) :
  _center a = _center a' ->
  _center b = _center b' ->
  (_peripheralIons a).*1 ≡ₚ (_peripheralIons a').*1 ->
  (_peripheralIons b).*1 ≡ₚ (_peripheralIons b').*1 ->
  get_connectivity site_eq a b = get_connectivity site_eq a' b'.
Proof.
  intros Ha Hb Hpa Hpb. rewrite !get_connectivity_count, Ha, Hb.
  destruct (site_eq _ _); [reflexivity|]. f_equal.
  rewrite !shared_on_sites. apply filter_length_perm; [|done].
  intros x. by apply existsb_perm.
Qed.
End GetConnectivityOrder.

Lemma get_connectivity_sites_only_witness :
  get_connectivity same_object poly_abc poly_bcd
  = get_connectivity same_object
      (mkPolyhedra 1%nat [(12%nat, 7%Q); (10%nat, 7%Q); (11%nat, 7%Q)])
      (mkPolyhedra 2%nat [(11%nat, 1%Q); (12%nat, 1%Q); (13%nat, 1%Q)]).
Proof.
  apply (get_connectivity_sites_only same_object); try reflexivity; simpl.
  - symmetry. apply (Permutation_cons_append [10%nat; 11%nat] 12%nat).
  - apply (Permutation_rev [13%nat; 12%nat; 11%nat]).
Defined.

(** X8: a polyhedron that lists no site object twice shares at most as
    many peripheral ions with another polyhedron as that one has, and at
    most as many as it has itself. *)
Theorem sharedCount_at_most (a b : Polyhedra site_ref) :
  _center a <> _center b ->
  NoDup (_peripheralIons a).*1 ->
  (0 <= sharedCount a b <= Z.of_nat (length (_peripheralIons a)))%Z
  /\ (sharedCount a b <= Z.of_nat (length (_peripheralIons b)))%Z.
Proof.
  intros Hne Ha. rewrite sharedCount_count, bool_decide_eq_false_2 by done.
  pose proof (length_filter (fun ion : site_ref * Q => ion.1 ∈ (_peripheralIons b).*1)
                (_peripheralIons a)) as Hle.
  split; [lia|]. rewrite filter_fst_length.
  assert (Hsub : filter (fun r => r ∈ (_peripheralIons b).*1) (_peripheralIons a).*1
                 ⊆+ (_peripheralIons b).*1).
  { apply NoDup_submseteq; [by apply NoDup_filter|].
    intros r Hr. by apply list_elem_of_filter in Hr as [Hr _]. }
  apply submseteq_length in Hsub. rewrite length_fmap in Hsub. lia.
Qed.

Lemma sharedCount_at_most_witness :
  (sharedCount poly_abc poly_once <= Z.of_nat (length (_peripheralIons poly_once)))%Z.
Proof.
  apply (sharedCount_at_most poly_abc poly_once).
  - simpl. lia.
  - simpl. compute_done.
Defined.

(** ** What get_polyhedra selects *)

Lemma List_filter_sublist {A : Type} (f : A -> bool) (l : list A) :
  sublist (List.filter f l) l.
Proof.
  induction l as [|x l IH]; simpl; [constructor|].
  destruct (f x); by constructor.
Qed.

Lemma get_polyhedra_member `{External} (s : Structure) (site : PeriodicSite) (radius : Q)
    (entry : PeriodicSite * Q) :
  entry ∈ _peripheralIons (get_polyhedra s site radius)
  <-> entry ∈ get_neighbors s site radius
      /\ is_anion (species_string entry.1) = true
      /\ (entry.2 < radius)%Q
      /\ (1 # 100000
          < calculate_bond_weight entry.2
              (List.filter (kept radius) (get_neighbors s site radius)).*2)%Q.
Proof.
  rewrite get_polyhedra_threshold, elem_of_List_filter.
  unfold kept. rewrite andb_true_iff, Qlt_bool_iff. tauto.
Qed.

(** X9: [get_polyhedra] returns a polyhedron centred on the site it was
    given whose peripheral ions are entries of the neighbour search, in the
    order of the search; an entry is kept exactly when its site is an
    anion, its distance is below the radius and its bond weight, computed
    from the distances of all anions below the radius, is above 1e-5. *)
Theorem get_polyhedra_selection `{External} (s : Structure) (site : PeriodicSite) (radius : Q) :
  _center (get_polyhedra s site radius) = site
  /\ sublist (_peripheralIons (get_polyhedra s site radius)) (get_neighbors s site radius)
  /\ forall entry,
       entry ∈ _peripheralIons (get_polyhedra s site radius)
       <-> entry ∈ get_neighbors s site radius
           /\ is_anion (species_string entry.1) = true
           /\ (entry.2 < radius)%Q
           /\ (1 # 100000
               < calculate_bond_weight entry.2
                   (List.filter (kept radius) (get_neighbors s site radius)).*2)%Q.
Proof.
  split; [|split].
  - unfold get_polyhedra. by rewrite neighbor_loop_filter.
  - unfold get_polyhedra. rewrite neighbor_loop_filter, peripheral_loop_filter. simpl.
    etrans; apply List_filter_sublist.
  - intros entry. apply get_polyhedra_member.
Qed.


(** ** More on the builder *)

Section BuilderMore.
Context `{External}.

Lemma builder_out (h : list Structure) (structure : nat) (margin radius : Q) :
  (getAllCationPolyhedralWReflections h structure margin radius).2
  = polyhedral_of (searched (h !!! structure) margin) radius
      <$> (cation_sites_of (h !!! structure) ++ reflections_of (h !!! structure) margin).
Proof.
  rewrite builder_run. unfold searched.
  destruct (reflections_of (h !!! structure) margin); simpl; by rewrite ?app_nil_r.
Qed.

(** X10: every peripheral ion that [get_polyhedra] keeps for a cation site,
    on the structure the builder searches, is also in the element the
    builder returns for that site. *)
Theorem builder_covers_get_polyhedra (h : list Structure) (structure : nat)
    (margin radius : Q) (site : PeriodicSite) (entry : PeriodicSite * Q) :
  site ∈ cation_sites_of (h !!! structure) ++ reflections_of (h !!! structure) margin ->
  entry ∈ _peripheralIons (get_polyhedra (searched (h !!! structure) margin) site radius) ->
  exists p, p ∈ (getAllCationPolyhedralWReflections h structure margin radius).2
            /\ head p.1 = Some (Central site)
            /\ Bond entry ∈ p.1.
Proof.
  intros Hsite Hentry.
  exists (polyhedral_of (searched (h !!! structure) margin) radius site).
  split; [rewrite builder_out; by apply list_elem_of_fmap_2|].
  rewrite polyhedral_of_sites. split; [reflexivity|]. right.
  apply list_elem_of_fmap_2.
  apply get_polyhedra_threshold in Hentry as [Hkept Hw].
  apply elem_of_List_filter. split; [done|].
  unfold bonded. apply orb_true_iff. right. apply Qlt_bool_iff.
  eapply Qlt_trans; [|exact Hw]. reflexivity.
Qed.

Lemma py_sum_ones (ws : list Q) (acc : Q) :
  Forall (fun w => w = 1%Q) ws ->
  (fold_left Qplus ws acc == acc + inject_Z (Z.of_nat (length ws)))%Q.
Proof.
  revert acc. induction ws as [|w ws IH]; intros acc Hws; simpl fold_left.
  - simpl length. change (inject_Z (Z.of_nat 0)) with 0%Q. lra.
  - apply Forall_cons in Hws as [-> Hws]. rewrite IH by done.
    rewrite length_cons, Nat2Z.inj_succ, <- Z.add_1_l, inject_Z_plus.
    change (inject_Z 1) with 1%Q. lra.
Qed.

Lemma py_round_whole (x : Q) (n : Z) :
  (0 <= n)%Z -> (x == inject_Z n)%Q -> py_round x = n.
Proof.
  intros Hn Hx. unfold py_round.
  assert (Hle : Qle_bool 0 x = true).
  { apply Qle_bool_iff. rewrite Hx. change 0%Q with (inject_Z 0). by rewrite <- Zle_Qle. }
  rewrite Hle. rewrite Hx. unfold inject_Z, Qplus, Qfloor. simpl.
  symmetry. apply (Z.div_unique _ 2 n 1); lia.
Qed.

(** X11: for a central site of the probe species Rn the builder keeps every
    anion found below the radius, whatever its bond weight, and the second
    component of the element is their number. *)
Theorem builder_probe (h : list Structure) (structure : nat) (margin radius : Q)
    (site : PeriodicSite) :
  species_string site = "Rn" ->
  site ∈ cation_sites_of (h !!! structure) ++ reflections_of (h !!! structure) margin ->
  (Central site
     :: (Bond <$> List.filter (kept radius)
                    (get_neighbors (searched (h !!! structure) margin) site radius)),
   Z.of_nat (length (List.filter (kept radius)
                       (get_neighbors (searched (h !!! structure) margin) site radius))))
  ∈ (getAllCationPolyhedralWReflections h structure margin radius).2.
Proof.
  intros HRn Hsite. rewrite builder_out.
  apply list_elem_of_fmap. exists site. split; [|done].
  unfold polyhedral_of. rewrite neighbor_loop_filter. simpl app.
  rewrite bond_loop_filter.
  set (found := List.filter (kept radius) _).
  assert (Hall : List.filter (bonded site found.*2) found = found).
  { generalize (found.*2). intros lengths. unfold bonded. rewrite HRn. simpl.
    induction found as [|e found IH]; simpl; [reflexivity|]. by rewrite IH. }
  rewrite Hall. simpl app. f_equal. symmetry. apply py_round_whole; [lia|].
  unfold py_sum. rewrite py_sum_ones.
  - rewrite length_fmap. lra.
  - apply Forall_fmap, Forall_forall. intros e _. simpl.
    unfold bond_weight_of. by rewrite HRn.
Qed.

(** X12: in every element the builder returns, the entries after the
    central site are entries that the neighbour search returned for that
    site on the structure searched, in the order of the search, each at a
    distance below the radius. *)
Theorem builder_entries_found (h : list Structure) (structure : nat) (margin radius : Q)
    (p : polyhedral) :
  p ∈ (getAllCationPolyhedralWReflections h structure margin radius).2 ->
  exists (site : PeriodicSite) (peripheral : list (PeriodicSite * Q)),
    p.1 = Central site :: (Bond <$> peripheral)
    /\ sublist peripheral (get_neighbors (searched (h !!! structure) margin) site radius)
    /\ Forall (fun entry => (entry.2 < radius)%Q) peripheral.
Proof.
  rewrite builder_out. intros (site & -> & _)%list_elem_of_fmap.
  eexists site, _. split; [apply polyhedral_of_sites|]. split.
  - etrans; apply List_filter_sublist.
  - apply Forall_forall. intros entry Hentry.
    apply elem_of_List_filter in Hentry as [Hentry _].
    apply elem_of_List_filter in Hentry as [_ Hkept].
    unfold kept in Hkept. apply andb_true_iff in Hkept as [_ Hlt].
    by apply Qlt_bool_iff.
Qed.

(** X13: [count_connectivity] returns a mapping exactly when the structure
    has no cation site; the mapping is then empty, the builder has returned
    the empty list and the store is as it was. *)
Theorem count_connectivity_returns (h : list Structure) (structure : nat) :
  ((exists m, (count_connectivity h structure).2 = Returns m)
   <-> cation_sites_of (h !!! structure) = [])
  /\ (cation_sites_of (h !!! structure) = [] ->
      count_connectivity h structure = (h, Returns ∅)
      /\ getAllCationPolyhedralWReflections h structure 0.05 3 = (h, [])).
Proof.
  assert (Hempty : cation_sites_of (h !!! structure) = [] ->
            getAllCationPolyhedralWReflections h structure 0.05 3 = (h, [])).
  { intros Hnone. rewrite builder_run. unfold reflections_of. by rewrite Hnone. }
  split; [split|].
  - intros [m Hm]. destruct (cation_sites_of (h !!! structure)) as [|c cs] eqn:Ec; [done|].
    exfalso. unfold count_connectivity in Hm.
    destruct (builder_nonempty h structure 0.05 3) as (p & ps & E); [by rewrite Ec|].
    destruct (getAllCationPolyhedralWReflections h structure 0.05 3) as [h' out].
    simpl in E. subst out. discriminate Hm.
  - intros Hnone. exists ∅. unfold count_connectivity. by rewrite (Hempty Hnone).
  - intros Hnone. split; [|by apply Hempty].
    unfold count_connectivity. by rewrite (Hempty Hnone).
Qed.

(** X14: a second call of the builder on the same reference returns the
    same list as the first. *)
Theorem builder_again (h : list Structure) (structure : nat) (margin radius : Q) :
  (structure < length h)%nat ->
  (getAllCationPolyhedralWReflections
     (getAllCationPolyhedralWReflections h structure margin radius).1
     structure margin radius).2
  = (getAllCationPolyhedralWReflections h structure margin radius).2.
Proof.
  intros Hlt. rewrite !builder_out.
  assert (Hsame : (getAllCationPolyhedralWReflections h structure margin radius).1
                    !!! structure = h !!! structure).
  { rewrite builder_run. destruct (reflections_of _ _); simpl; [reflexivity|].
    by apply lookup_total_app_l. }
  by rewrite Hsame.
Qed.
End BuilderMore.

(** X15: the structure constructed when there are reflections has the sites
    of the input followed by reflected copies of cation sites only, so it
    has the anions of the input and no other. *)
Theorem augmented_anions (s : Structure) (margin : Q) :
  length (sites (augmented s margin))
    = (length (sites s) + length (reflections_of s margin))%nat
  /\ List.filter is_anion (species_string <$> sites (augmented s margin))
     = List.filter is_anion (species_string <$> sites s)
  /\ Forall (fun site => is_anion (species_string site) = false) (reflections_of s margin).
Proof.
  assert (Hfields := Structure_new_fields (s_lattice s) (sites s ++ reflections_of s margin)).
  rewrite !fmap_app in Hfields. destruct Hfields as (Hsp & _ & _).
  fold (augmented s margin) in Hsp.
  assert (Hcat : Forall (fun site => is_anion (species_string site) = false)
                   (reflections_of s margin)).
  { apply Forall_forall. intros site Hsite.
    apply (centres_are_cations s margin). apply elem_of_app. by right. }
  split; [|split; [|done]].
  - apply (f_equal length) in Hsp. by rewrite !length_fmap, length_app, !length_fmap in Hsp.
  - rewrite Hsp, List.filter_app.
    rewrite (List_filter_none is_anion (species_string <$> reflections_of s margin)).
    + by rewrite app_nil_r.
    + intros sp (site & -> & Hsite)%list_elem_of_fmap.
      by apply (proj1 (Forall_forall _ _) Hcat).
Qed.

Lemma builder_covers_get_polyhedra_witness :
  exists p, p ∈ (@getAllCationPolyhedralWReflections ext_LiO4 [struct_LiO4] 0 0.05 5).2
            /\ head p.1 = Some (Central site_Li)
            /\ Bond (site_O1, 2%Q) ∈ p.1.
Proof.
  apply (@builder_covers_get_polyhedra ext_LiO4 [struct_LiO4] 0 0.05 5 site_Li (site_O1, 2%Q)).
  - vm_compute. left.
  - vm_compute. left.
Defined.

Lemma builder_probe_witness :
  ([Central site_Rn; Bond (site_O1, 2%Q); Bond (site_O2, 2%Q)], 2%Z)
  ∈ (@getAllCationPolyhedralWReflections ext_Rn [struct_Rn] 0 0.05 3).2.
Proof.
  apply (@builder_probe ext_Rn [struct_Rn] 0 0.05 3 site_Rn).
  - reflexivity.
  - vm_compute. left.
Defined.

Lemma builder_entries_found_witness :
  exists (site : PeriodicSite) (peripheral : list (PeriodicSite * Q)),
    [Central site_Li; Bond (site_O1, 2%Q); Bond (site_O2, 2%Q); Bond (site_O3, 2%Q);
     Bond (site_O4, 4%Q)] = Central site :: (Bond <$> peripheral)
    /\ sublist peripheral
         (@get_neighbors ext_LiO4 (searched ([struct_LiO4] !!! 0%nat) 0.05) site 5)
    /\ Forall (fun entry => (entry.2 < 5)%Q) peripheral.
Proof.
  apply (@builder_entries_found ext_LiO4 [struct_LiO4] 0 0.05 5
           ([Central site_Li; Bond (site_O1, 2%Q); Bond (site_O2, 2%Q); Bond (site_O3, 2%Q);
             Bond (site_O4, 4%Q)], 3%Z)).
  vm_compute. left.
Defined.

Lemma count_connectivity_returns_witness :
  @count_connectivity ext_alone [struct_O] 0 = ([struct_O], Returns ∅).
Proof.
  apply (@count_connectivity_returns ext_alone [struct_O] 0). reflexivity.
Defined.

Lemma builder_again_witness :
  (@getAllCationPolyhedralWReflections ext_alone
     (@getAllCationPolyhedralWReflections ext_alone [struct_Li_face] 0 0.05 3).1 0 0.05 3).2
  = (@getAllCationPolyhedralWReflections ext_alone [struct_Li_face] 0 0.05 3).2.
Proof.
  apply (@builder_again ext_alone [struct_Li_face] 0 0.05 3). simpl. lia.
Defined.


(** ** More on the reflection generator *)





Lemma Qplus_zero (q : Q) : (q + 0)%Q = q.
Proof.
  destruct q as [n d]. unfold Qplus. simpl.
  rewrite Z.mul_1_r, Z.add_0_r, Pos.mul_1_r. reflexivity.
Qed.

Lemma translated_by_none (sign : Q -> Q -> Z) (site : PeriodicSite) (margin : Q) :
  translated_by sign site margin (false, false, false) = site.
Proof.
  destruct site as [sp [x y z] lat]. unfold translated_by, vadd. simpl.
  by rewrite !Qplus_zero.
Qed.

Lemma step_injective (s : Z) (c : Q) (a b : bool) :
  implb a (negb (s =? 0)%Z) = true ->
  implb b (negb (s =? 0)%Z) = true ->
  (c + (if a then inject_Z s * 1 else 0) == c + (if b then inject_Z s * 1 else 0))%Q ->
  a = b.
Proof.
  intros Ha Hb Heq.
  destruct a, b; try reflexivity; simpl in Ha, Hb; exfalso;
    (assert (Hs : (inject_Z s == 0)%Q) by lra);
    unfold Qeq, inject_Z in Hs; simpl in Hs; lia.
Qed.

Lemma translated_by_injective (site : PeriodicSite) (margin : Q)
    (axes1 axes2 : bool * bool * bool) :
  all_near_by last_sign site margin axes1 = true ->
  all_near_by last_sign site margin axes2 = true ->
  translated_by last_sign site margin axes1 = translated_by last_sign site margin axes2 ->
  axes1 = axes2.
Proof.
  destruct axes1 as [[a1 b1] c1], axes2 as [[a2 b2] c2].
  unfold all_near_by, translated_by, vadd.
  rewrite !andb_true_iff. intros [[Ha1 Hb1] Hc1] [[Ha2 Hb2] Hc2] Heq.
  pose proof (f_equal (fun r => v0 (frac_coords r)) Heq) as Hx.
  pose proof (f_equal (fun r => v1 (frac_coords r)) Heq) as Hy.
  pose proof (f_equal (fun r => v2 (frac_coords r)) Heq) as Hz.
  cbn [frac_coords v0 v1 v2] in Hx, Hy, Hz.
  rewrite (step_injective _ _ a1 a2 Ha1 Ha2) by (by rewrite Hx).
  rewrite (step_injective _ _ b1 b2 Hb1 Hb2) by (by rewrite Hy).
  rewrite (step_injective _ _ c1 c2 Hc1 Hc2) by (by rewrite Hz).
  reflexivity.
Qed.

(** X17: for every margin the copies are pairwise different sites and none
    of them is the site itself. *)
Theorem checkReflections_distinct (site : PeriodicSite) (margin : Q) :
  NoDup (site :: checkReflections site margin).
Proof.
  rewrite checkReflections_any_margin.
  rewrite <- (translated_by_none last_sign site margin) at 1.
  change (NoDup (translated_by last_sign site margin
                   <$> (false, false, false)
                       :: List.filter (all_near_by last_sign site margin) axis_subsets)).
  apply NoDup_fmap_2_strong.
  - intros axes1 axes2 H1 H2. apply translated_by_injective.
    + apply elem_of_cons in H1 as [->|H1]; [reflexivity|].
      by apply elem_of_List_filter in H1 as [_ H1].
    + apply elem_of_cons in H2 as [->|H2]; [reflexivity|].
      by apply elem_of_List_filter in H2 as [_ H2].
  - apply NoDup_cons. split.
    + intros Hin. apply elem_of_List_filter in Hin as [Hin _].
      by apply axis_subsets_nonempty in Hin.
    + apply NoDup_ListNoDup, List.NoDup_filter, NoDup_ListNoDup.
      unfold axis_subsets. compute_done.
Qed.






(** ** The other functions of the module *)

(** X19: on the polyhedron that [get_polyhedra] returns,
    [get_peripheral_distances] returns (the empty list) only when no
    neighbour was kept; as soon as one peripheral ion is kept it raises
    [AttributeError], the peripheral ions being (site, distance) tuples. *)
Theorem get_peripheral_distances_of_polyhedra `{External} (s : Structure)
    (site : PeriodicSite) (radius : Q) :
  (_peripheralIons (get_polyhedra s site radius) = []
   -> get_peripheral_distances (get_polyhedra s site radius) = Returns [])
  /\ (_peripheralIons (get_polyhedra s site radius) <> []
      -> get_peripheral_distances (get_polyhedra s site radius)
         = Raises (AttributeError "tuple" "distance"))
  /\ ((exists distances,
         get_peripheral_distances (get_polyhedra s site radius) = Returns distances)
      <-> forall entry, entry ∈ get_neighbors s site radius ->
            is_anion (species_string entry.1) = true ->
            (entry.2 < radius)%Q ->
            ~ (1 # 100000
               < calculate_bond_weight entry.2
                   (List.filter (kept radius) (get_neighbors s site radius)).*2)%Q).
Proof.
  unfold get_peripheral_distances.
  pose proof (get_polyhedra_member s site radius) as Hmem.
  destruct (_peripheralIons (get_polyhedra s site radius)) as [|ion ions] eqn:E.
  - split; [done|]. split; [done|]. split; [|by eexists].
    intros _ entry H1 H2 H3 H4.
    assert (Hin : entry ∈ []) by (apply Hmem; done).
    by apply elem_of_nil in Hin.
  - split; [done|]. split; [done|]. split; [by intros [distances Hd]|].
    intros Hnone. exfalso.
    assert (Hion : ion ∈ ion :: ions) by left.
    apply Hmem in Hion as (H1 & H2 & H3 & H4). by apply (Hnone ion).
Qed.

Lemma surrounding_loop_raises (polyhedra other : pyobj) (rest : list pyobj)
    (connectedPolyhedra : list (pyobj * Z)) :
  surrounding_loop polyhedra (other :: rest) connectedPolyhedra
  = Raises (AttributeError (class_name polyhedra) "get_connection").
Proof. reflexivity. Qed.

(** X20: [get_surrounding_connectivity] returns a list, the empty one, exactly
    when the structure has no cation site; otherwise it raises
    [AttributeError] at [polyhedra.get_connection], which no class defines.
    The function [get_connection] of the module raises [AttributeError] for
    every pair of objects, at [getConnectivity]. *)
Theorem get_surrounding_connectivity_outcome `{External} (h : list Structure)
    (structure : nat) (polyhedra : pyobj) :
  (cation_sites_of (h !!! structure) = []
   -> get_surrounding_connectivity h structure polyhedra = (h, Returns []))
  /\ (cation_sites_of (h !!! structure) <> []
      -> (get_surrounding_connectivity h structure polyhedra).2
         = Raises (AttributeError (class_name polyhedra) "get_connection"))
  /\ (forall other, get_connection polyhedra other
                    = Raises (AttributeError (class_name polyhedra) "getConnectivity")).
Proof.
  split; [|split; [|done]].
  - intros Hnone. unfold get_surrounding_connectivity.
    rewrite builder_run. unfold reflections_of. by rewrite Hnone.
  - intros Hsome. unfold get_surrounding_connectivity.
    destruct (builder_nonempty h structure (5 # 100) 3 Hsome) as (p & ps & E).
    destruct (getAllCationPolyhedralWReflections h structure (5 # 100) 3) as [h' out].
    simpl in E. subst out. reflexivity.
Qed.

Lemma get_surrounding_connectivity_outcome_witness :
  (@get_surrounding_connectivity ext_alone [struct_Li_mid] 0
     (Obj_Polyhedra (mkPolyhedra site_Li_mid []))).2
  = Raises (AttributeError "Polyhedra" "get_connection").
Proof.
  apply (@get_surrounding_connectivity_outcome ext_alone [struct_Li_mid] 0
           (Obj_Polyhedra (mkPolyhedra site_Li_mid []))).
  simpl. discriminate.
Defined.

Lemma get_peripheral_distances_of_polyhedra_witness :
  get_peripheral_distances (@get_polyhedra ext_LiO4 struct_LiO4 site_Li 5)
  = Raises (AttributeError "tuple" "distance").
Proof.
  apply (@get_peripheral_distances_of_polyhedra ext_LiO4 struct_LiO4 site_Li 5).
  vm_compute. discriminate.
Defined.

(** ** getAvgOKeeffeCN *)

Lemma weights_of_snoc (key : string) (done : list Substructure) (substruct : Substructure) :
  weights_of key (done ++ [substruct])
  = weights_of key done
    ++ (if bool_decide (central_ion substruct = key) then [weight_sum substruct] else []).
Proof.
  unfold weights_of. rewrite filter_app, fmap_app. f_equal.
  rewrite filter_cons, filter_nil. case_bool_decide as Hk.
  - by rewrite decide_True.
  - by rewrite decide_False.
Qed.

Lemma weights_of_absent (key : string) (done : list Substructure) :
  key ∉ central_ion <$> done -> weights_of key done = [].
Proof.
  intros Hout. unfold weights_of.
  induction done as [|s done IH]; [reflexivity|].
  rewrite fmap_cons, not_elem_of_cons in Hout. destruct Hout as [Hne Hout].
  rewrite filter_cons, decide_False by done. by apply IH.
Qed.

Lemma weights_of_present (key : string) (done : list Substructure) :
  key ∈ central_ion <$> done -> weights_of key done <> [].
Proof.
  intros (s & -> & Hs)%list_elem_of_fmap. unfold weights_of.
  intros Hnil%fmap_nil_inv.
  assert (Hin : s ∈ filter (fun substruct => central_ion substruct = central_ion s) done)
    by (by apply list_elem_of_filter).
  rewrite Hnil in Hin. by apply elem_of_nil in Hin.
Qed.

Lemma okeeffe_loop_gathers (rest done : list Substructure) (cationList : list string)
    (listCN : gmap string (list Q)) :
  gathered done cationList listCN ->
  exists cationList' listCN',
    okeeffe_loop rest cationList listCN = Returns (cationList', listCN')
    /\ gathered (done ++ rest) cationList' listCN'.
Proof.
  revert done cationList listCN.
  induction rest as [|s rest IH]; intros done cationList listCN [Hkeys Hmap].
  { exists cationList, listCN. by rewrite app_nil_r. }
  cbn [okeeffe_loop].
  assert (Hstep : forall weights,
    weights = weights_of (central_ion s) done ->
    forall cationList',
    (forall key, key ∈ cationList' <-> key ∈ central_ion <$> (done ++ [s])) ->
    gathered (done ++ [s]) cationList'
      (<[central_ion s := weights ++ [weight_sum s]]> listCN)).
  { intros weights -> cationList' Hkeys'. split; [done|]. intros key.
    destruct (decide (key = central_ion s)) as [->|Hne].
    - rewrite lookup_insert_eq, bool_decide_eq_true_2.
      + by rewrite weights_of_snoc, (bool_decide_eq_true_2 (central_ion s = central_ion s)).
      + rewrite fmap_app, elem_of_app. right. left.
    - rewrite lookup_insert_ne, Hmap by done.
      rewrite weights_of_snoc, (bool_decide_eq_false_2 (central_ion s = key)), app_nil_r
        by congruence.
      apply (f_equal (fun b : bool => if b then _ else _)).
      apply bool_decide_ext. rewrite fmap_app, elem_of_app. split; [tauto|].
      intros [Hin|Hin]; [done|]. apply list_elem_of_singleton in Hin. done. }
  destruct (decide (central_ion s ∈ cationList)) as [Hin|Hin];
    [rewrite bool_decide_eq_true_2 by done|rewrite bool_decide_eq_false_2 by done]; simpl.
  - pose proof (proj1 (Hkeys _) Hin) as Hdone.
    specialize (Hmap (central_ion s)) as Hl. rewrite bool_decide_eq_true_2 in Hl by done.
    rewrite Hl.
    destruct (IH (done ++ [s]) cationList
                (<[central_ion s := weights_of (central_ion s) done ++ [weight_sum s]]> listCN))
      as (cl' & m' & Hrun & Hg).
    + apply Hstep; [reflexivity|].
      intros key. rewrite Hkeys, fmap_app, elem_of_app. split; [tauto|].
      intros [Hk|Hk]; [done|]. apply list_elem_of_singleton in Hk. by subst key.
    + exists cl', m'. split; [done|]. by rewrite <- app_assoc in Hg.
  - assert (Hdone : central_ion s ∉ central_ion <$> done) by (by rewrite <- Hkeys).
    destruct (IH (done ++ [s]) (cationList ++ [central_ion s])
                (<[central_ion s := [] ++ [weight_sum s]]> listCN))
      as (cl' & m' & Hrun & Hg).
    + apply Hstep.
      * symmetry. by apply weights_of_absent.
      * intros key. rewrite !elem_of_app, Hkeys, fmap_app, elem_of_app. tauto.
    + exists cl', m'. split; [done|]. by rewrite <- app_assoc in Hg.
Qed.

Section OKeeffeFacts.
Context (substructures_from_structure : Structure -> list Substructure).

(** X21: [getAvgOKeeffeCN] raises nothing ([listCN[cation]] is always
    there) and returns one entry for each central ion of the substructures,
    no ion twice: the ion with the mean of the weight sums of the
    substructures centred on it, a list that is never empty. *)
Theorem getAvgOKeeffeCN_means (structure : Structure) (radius : Q) :
  exists avgCNs,
    getAvgOKeeffeCN substructures_from_structure structure radius = Returns avgCNs
    /\ NoDup avgCNs.*1
    /\ (forall key, key ∈ avgCNs.*1
                    <-> key ∈ central_ion <$> substructures_from_structure structure)
    /\ (forall key avg,
          (key, avg) ∈ avgCNs
          <-> key ∈ central_ion <$> substructures_from_structure structure
              /\ avg = np_mean (weights_of key (substructures_from_structure structure)))
    /\ (forall key, key ∈ central_ion <$> substructures_from_structure structure ->
          weights_of key (substructures_from_structure structure) <> []).
Proof.
  unfold getAvgOKeeffeCN.
  destruct (okeeffe_loop_gathers (substructures_from_structure structure) [] [] ∅)
    as (cl & m & Hrun & _ & Hmap).
  { split; [done|]. intros key. rewrite lookup_empty.
    rewrite bool_decide_eq_false_2; [done|]. simpl. apply not_elem_of_nil. }
  simpl in Hrun, Hmap. rewrite Hrun. simpl.
  eexists. split; [reflexivity|].
  assert (Hpairs : forall key avg,
    (key, avg) ∈ (fun entry : string * list Q => (entry.1, np_mean entry.2)) <$> map_to_list m
    <-> key ∈ central_ion <$> substructures_from_structure structure
        /\ avg = np_mean (weights_of key (substructures_from_structure structure))).
  { intros key avg. rewrite list_elem_of_fmap. split.
    - intros ([k l] & [= -> ->] & Hkl). apply elem_of_map_to_list in Hkl.
      rewrite Hmap in Hkl. case_bool_decide; [|done]. by injection Hkl as <-.
    - intros [Hin ->]. exists (key, weights_of key (substructures_from_structure structure)).
      split; [done|]. apply elem_of_map_to_list. rewrite Hmap.
      by rewrite bool_decide_eq_true_2. }
  split; [|split; [|split; [done|]]].
  - rewrite <- list_fmap_compose.
    apply (NoDup_fst_map_to_list m).
  - intros key. rewrite list_elem_of_fmap. split.
    + intros ([k avg] & -> & Hin). by apply Hpairs in Hin as [Hin _].
    + intros Hin. eexists (key, _). split; [reflexivity|]. apply Hpairs. by split.
  - intros key. apply weights_of_present.
Qed.
End OKeeffeFacts.
